(** * ADC test harness for the LaunchPad F28379D: sampling and statistics

    A shallow embedding of [adc_config.c] / [adc_config.h] and of the
    sampling-and-statistics part of [lab_main.c]:

    - [float] is IEEE-754 binary32, modelled bit-exactly with the Standard
      Library's [SpecFloat] (precision 24, emax 128, round to nearest even);
    - the global arrays of [NUM_ADC_CHANNELS] elements are lists read with
      [!!!] and written with [<[i:=v]>];
    - the ADC peripheral is an environment: every answer of the driver
      library is chosen by an oracle that sees the whole history of accesses;
      the polling loops take fuel, and a run that is out of fuel is a run that
      is still blocked in the loop;
    - the tables sent over the serial link are first taken as the values
      handed to the [UARTSend*] functions; the functions that turn numbers
      into characters are modelled after that, as the string they send. *)

From Stdlib Require Import ZArith QArith Qabs Bool Lia.
From Stdlib Require Import Floats.SpecFloat.
From Stdlib Require Import Ascii String.
From stdpp Require Import base list.

Open Scope Z_scope.

(** ** IEEE-754 binary32 *)

Module F32.

Definition prec : Z := 24.
Definition emax : Z := 128.

Definition add : spec_float -> spec_float -> spec_float := SFadd prec emax.
Definition sub : spec_float -> spec_float -> spec_float := SFsub prec emax.
Definition mul : spec_float -> spec_float -> spec_float := SFmul prec emax.
Definition div : spec_float -> spec_float -> spec_float := SFdiv prec emax.
Definition opp : spec_float -> spec_float := SFopp.

(** [x < y], [x <= y] of C; both are false as soon as one side is a NaN. *)
Definition ltb : spec_float -> spec_float -> bool := SFltb.
Definition leb : spec_float -> spec_float -> bool := SFleb.

(** [(float) z] for an integer [z]. *)
Definition of_Z (z : Z) : spec_float := binary_normalize prec emax z 0 false.

(** The binary32 number nearest to [n / d]: how a decimal literal with an
    [F] suffix is read. *)
Definition of_ratio (n d : positive) : spec_float :=
  let '(q, e, l) := SFdiv_core_binary prec emax (Zpos n) 0 (Zpos d) 0 in
  binary_round_aux prec emax false q e l.

Definition zero : spec_float := S754_zero false.

Definition is_finite (x : spec_float) : bool :=
  match x with
  | S754_zero _ | S754_finite _ _ _ => true
  | S754_infinity _ | S754_nan => false
  end.

Definition is_nan (x : spec_float) : bool :=
  match x with
  | S754_nan => true
  | _ => false
  end.

(** The exact rational value of a finite number (0 for the others). *)
Definition to_Q (x : spec_float) : Q :=
  match x with
  | S754_finite s m e =>
      let z := if s then Zneg m else Zpos m in
      match e with
      | Zneg p => Qmake z (2 ^ p)%positive
      | _ => inject_Z (z * 2 ^ e)
      end
  | _ => 0%Q
  end.

(** [|x - q| <= tol] on the exact value of [x]. *)
Definition within (tol : Q) (x : spec_float) (q : Q) : bool :=
  Qle_bool (Qabs (to_Q x - q)) tol.

End F32.

#[global] Instance spec_float_inhabited : Inhabited spec_float :=
  populate F32.zero.

(** ** Fixed-width integers *)

Definition uint16 (z : Z) : Z := z mod 2 ^ 16.
Definition uint32 (z : Z) : Z := z mod 2 ^ 32.
Definition int32 (z : Z) : Z := (z + 2 ^ 31) mod 2 ^ 32 - 2 ^ 31.

(** [for (i = 0; i < n; i++) body] over a state [S]. *)
Definition for_loop {S : Type} (n : nat) (body : nat -> S -> S) (s : S) : S :=
  foldl (fun acc i => body i acc) s (seq 0 n).

(** ** adc_config.h *)

(** [#define DIFFERENTIAL 0.0000503540039F] *)
Definition DIFFERENTIAL : spec_float :=
  F32.of_ratio 503540039 (10 ^ 13).

(** [#define SINGLE_ENDED 0.00080566406F] *)
Definition SINGLE_ENDED : spec_float :=
  F32.of_ratio 80566406 (10 ^ 11).

Definition NUM_ADC_CHANNELS : nat := 2.

(** ** The ADC peripheral seen through driverlib *)

(** [myADCA] (base, result base, SOC0, ADCINT1) and [myADCB]. *)
Inductive adc_instance := myADCA | myADCB.

(** One entry per driver call, with the value the call returned. *)
Inductive hw_event :=
| ForceSOC (a : adc_instance)
| GetInterruptStatus (a : adc_instance) (flag : bool)
| ClearInterruptStatus (a : adc_instance)
| ReadResult (a : adc_instance) (raw : Z).

(** The peripheral: what [ADC_getInterruptStatus] and [ADC_readResult] answer
    after a given history of accesses (oldest first). *)
Record adc_hw := {
  hw_status : list hw_event -> adc_instance -> bool;
  hw_result : list hw_event -> adc_instance -> Z
}.

(** ** adc_config.c *)

(** [while (ADC_getInterruptStatus(base, ADC_INT_NUMBER1) == false) {}]:
    returns whether the flag was seen within [fuel] polls, and the history. *)
Fixpoint wait_ADCINT1 (fuel : nat) (hw : adc_hw) (a : adc_instance)
    (hist : list hw_event) : bool * list hw_event :=
  match fuel with
  | O => (false, hist)
  | S fuel' =>
      let flag := hw_status hw hist a in
      let hist' := hist ++ [GetInterruptStatus a flag] in
      if flag then (true, hist') else wait_ADCINT1 fuel' hw a hist'
  end.

(** Force SOC0, poll ADCINT1, clear it, read the result register. [None] when
    the run is still polling after [fuel] polls. *)
Definition acquire (fuel : nat) (hw : adc_hw) (a : adc_instance)
    (hist : list hw_event) : option Z * list hw_event :=
  let h1 := hist ++ [ForceSOC a] in
  let '(seen, h2) := wait_ADCINT1 fuel hw a h1 in
  if seen then
    let h3 := h2 ++ [ClearInterruptStatus a] in
    let raw := uint16 (hw_result hw h3 a) in
    (Some raw, h3 ++ [ReadResult a raw])
  else (None, h2).

Definition AdcConversion (fuel : nat) (hw : adc_hw) (hist : list hw_event)
    (read : list Z) : option (list Z) * list hw_event :=
  match acquire fuel hw myADCA hist with
  | (None, h) => (None, h)
  | (Some r0, h) =>
      let read := <[0%nat := r0]> read in
      match acquire fuel hw myADCB h with
      | (None, h') => (None, h')
      | (Some r1, h') => (Some (<[1%nat := r1]> read), h')
      end
  end.

Definition AdcResult (voltage : list spec_float) (read : list Z)
    : list spec_float :=
  let signedValue := int32 (int32 (read !!! 0%nat) - 32768) in
  let voltage :=
    <[0%nat := F32.mul (F32.of_Z signedValue) DIFFERENTIAL]> voltage in
  <[1%nat := F32.mul (F32.of_Z (read !!! 1%nat)) SINGLE_ENDED]> voltage.

(** ** lab_main.c *)

Definition TEST_ITERATIONS : Z := 10.

(** The global variables. *)
Record globals := {
  adcRawData : list Z;
  adcVoltages : list spec_float;
  testIteration : Z;
  minVoltages : list spec_float;
  maxVoltages : list spec_float;
  avgVoltages : list spec_float;
  sumVoltages : list spec_float
}.

Definition set_adcRawData (x : list Z) (g : globals) : globals :=
  {| adcRawData := x; adcVoltages := adcVoltages g;
     testIteration := testIteration g; minVoltages := minVoltages g;
     maxVoltages := maxVoltages g; avgVoltages := avgVoltages g;
     sumVoltages := sumVoltages g |}.

Definition set_adcVoltages (x : list spec_float) (g : globals) : globals :=
  {| adcRawData := adcRawData g; adcVoltages := x;
     testIteration := testIteration g; minVoltages := minVoltages g;
     maxVoltages := maxVoltages g; avgVoltages := avgVoltages g;
     sumVoltages := sumVoltages g |}.

Definition set_testIteration (x : Z) (g : globals) : globals :=
  {| adcRawData := adcRawData g; adcVoltages := adcVoltages g;
     testIteration := x; minVoltages := minVoltages g;
     maxVoltages := maxVoltages g; avgVoltages := avgVoltages g;
     sumVoltages := sumVoltages g |}.

Definition set_minVoltages (x : list spec_float) (g : globals) : globals :=
  {| adcRawData := adcRawData g; adcVoltages := adcVoltages g;
     testIteration := testIteration g; minVoltages := x;
     maxVoltages := maxVoltages g; avgVoltages := avgVoltages g;
     sumVoltages := sumVoltages g |}.

Definition set_maxVoltages (x : list spec_float) (g : globals) : globals :=
  {| adcRawData := adcRawData g; adcVoltages := adcVoltages g;
     testIteration := testIteration g; minVoltages := minVoltages g;
     maxVoltages := x; avgVoltages := avgVoltages g;
     sumVoltages := sumVoltages g |}.

Definition set_avgVoltages (x : list spec_float) (g : globals) : globals :=
  {| adcRawData := adcRawData g; adcVoltages := adcVoltages g;
     testIteration := testIteration g; minVoltages := minVoltages g;
     maxVoltages := maxVoltages g; avgVoltages := x;
     sumVoltages := sumVoltages g |}.

Definition set_sumVoltages (x : list spec_float) (g : globals) : globals :=
  {| adcRawData := adcRawData g; adcVoltages := adcVoltages g;
     testIteration := testIteration g; minVoltages := minVoltages g;
     maxVoltages := maxVoltages g; avgVoltages := avgVoltages g;
     sumVoltages := x |}.

(** The globals at program start: zero-initialised static storage. *)
Definition globals_at_reset : globals :=
  {| adcRawData := replicate NUM_ADC_CHANNELS 0;
     adcVoltages := replicate NUM_ADC_CHANNELS F32.zero;
     testIteration := 0;
     minVoltages := replicate NUM_ADC_CHANNELS F32.zero;
     maxVoltages := replicate NUM_ADC_CHANNELS F32.zero;
     avgVoltages := replicate NUM_ADC_CHANNELS F32.zero;
     sumVoltages := replicate NUM_ADC_CHANNELS F32.zero |}.

(** Every array has its declared size. *)
Definition wf_globals (g : globals) : Prop :=
  length (adcRawData g) = NUM_ADC_CHANNELS /\
  length (adcVoltages g) = NUM_ADC_CHANNELS /\
  length (minVoltages g) = NUM_ADC_CHANNELS /\
  length (maxVoltages g) = NUM_ADC_CHANNELS /\
  length (avgVoltages g) = NUM_ADC_CHANNELS /\
  length (sumVoltages g) = NUM_ADC_CHANNELS.

Definition InitStatistics_body (i : nat) (g : globals) : globals :=
  let g := set_minVoltages (<[i := F32.of_Z 10]> (minVoltages g)) g in
  let g := set_maxVoltages (<[i := F32.opp (F32.of_Z 10)]> (maxVoltages g)) g in
  let g := set_sumVoltages (<[i := F32.zero]> (sumVoltages g)) g in
  set_avgVoltages (<[i := F32.zero]> (avgVoltages g)) g.

Definition InitStatistics (g : globals) : globals :=
  for_loop NUM_ADC_CHANNELS InitStatistics_body g.

Definition UpdateStatistics_body (i : nat) (g : globals) : globals :=
  let g :=
    if F32.ltb (adcVoltages g !!! i) (minVoltages g !!! i)
    then set_minVoltages (<[i := adcVoltages g !!! i]> (minVoltages g)) g
    else g in
  let g :=
    if F32.ltb (maxVoltages g !!! i) (adcVoltages g !!! i)
    then set_maxVoltages (<[i := adcVoltages g !!! i]> (maxVoltages g)) g
    else g in
  set_sumVoltages
    (<[i := F32.add (sumVoltages g !!! i) (adcVoltages g !!! i)]>
       (sumVoltages g)) g.

Definition UpdateStatistics (g : globals) : globals :=
  for_loop NUM_ADC_CHANNELS UpdateStatistics_body g.

(** One line of the statistics table: the four values handed to
    [UARTSendFloat], under the headings Min(V), Max(V), Avg(V), P-P(mV). *)
Record stats_row := {
  row_min : spec_float;
  row_max : spec_float;
  row_avg : spec_float;
  row_peakToPeak : spec_float
}.

(** The statistics table: "STATISTICS (Last [sampleCount] readings)" and one
    row per channel. *)
Record stats_report := {
  rep_sampleCount : Z;
  rep_rows : list stats_row
}.

Definition DisplayStatistics_sampleCount (g : globals) : Z :=
  let sampleCount := testIteration g mod TEST_ITERATIONS in
  if sampleCount =? 0 then TEST_ITERATIONS else sampleCount.

Definition DisplayStatistics_body (sampleCount : Z) (i : nat)
    (st : globals * list stats_row) : globals * list stats_row :=
  let '(g, rows) := st in
  let peakToPeak :=
    F32.mul (F32.sub (maxVoltages g !!! i) (minVoltages g !!! i))
      (F32.of_Z 1000) in
  let g :=
    set_avgVoltages
      (<[i := F32.div (sumVoltages g !!! i) (F32.of_Z sampleCount)]>
         (avgVoltages g)) g in
  (g, rows ++ [{| row_min := minVoltages g !!! i;
                  row_max := maxVoltages g !!! i;
                  row_avg := avgVoltages g !!! i;
                  row_peakToPeak := peakToPeak |}]).

Definition DisplayStatistics (g : globals) : globals * stats_report :=
  let sampleCount := DisplayStatistics_sampleCount g in
  let '(g', rows) :=
    for_loop NUM_ADC_CHANNELS (DisplayStatistics_body sampleCount) (g, []) in
  (g', {| rep_sampleCount := sampleCount; rep_rows := rows |}).

Definition VerifyADCReadings_body (i : nat) (st : globals * Z)
    : globals * Z :=
  let '(g, validCount) := st in
  if (i =? 0)%nat then
    if (100 <? adcRawData g !!! i) && (adcRawData g !!! i <? 65435)
    then (g, uint16 (validCount + 1)) else (g, validCount)
  else
    if (10 <? adcRawData g !!! i) && (adcRawData g !!! i <? 4086)
    then (g, uint16 (validCount + 1)) else (g, validCount).

Definition VerifyADCReadings (g : globals) : bool :=
  0 <? snd (for_loop NUM_ADC_CHANNELS VerifyADCReadings_body (g, 0)).

(** What the program sends over the serial link, reduced to its values. *)
Inductive uart_item :=
| InitializationPassed
| InitializationWarning
| Readings (iteration : Z) (raw : list Z) (voltage : list spec_float)
| Statistics (rep : stats_report).

(** The running program: its globals, the history of ADC accesses and the
    serial output so far (oldest first). *)
Record machine := {
  m_globals : globals;
  m_hw : list hw_event;
  m_uart : list uart_item
}.

(** The body of [while (1)] after [AdcConversion] has filled [adcRawData]. *)
Definition main_loop_after_conversion (g : globals)
    : globals * list uart_item :=
  let g := set_adcVoltages (AdcResult (adcVoltages g) (adcRawData g)) g in
  let g := UpdateStatistics g in
  let out := [Readings (testIteration g) (adcRawData g) (adcVoltages g)] in
  let '(g, out) :=
    if (0 <? testIteration g) && (testIteration g mod TEST_ITERATIONS =? 0)
    then
      let '(g', rep) := DisplayStatistics g in
      (InitStatistics g', out ++ [Statistics rep])
    else (g, out) in
  (set_testIteration (uint32 (testIteration g + 1)) g, out).

(** One turn of [while (1)]; [None] while [AdcConversion] is blocked. *)
Definition main_loop_body (fuel : nat) (hw : adc_hw) (m : machine)
    : option machine :=
  match AdcConversion fuel hw (m_hw m) (adcRawData (m_globals m)) with
  | (None, _) => None
  | (Some read, h) =>
      let '(g, out) :=
        main_loop_after_conversion (set_adcRawData read (m_globals m)) in
      Some {| m_globals := g; m_hw := h; m_uart := m_uart m ++ out |}
  end.

(** [main] up to the first turn of the loop: the initial ADC test, whose
    outcome is only reported, then [InitStatistics]. *)
Definition main_init (fuel : nat) (hw : adc_hw) : option machine :=
  let g := globals_at_reset in
  match AdcConversion fuel hw [] (adcRawData g) with
  | (None, _) => None
  | (Some read, h) =>
      let g := set_adcRawData read g in
      let g := set_adcVoltages (AdcResult (adcVoltages g) (adcRawData g)) g in
      let out :=
        if VerifyADCReadings g then [InitializationPassed]
        else [InitializationWarning] in
      Some {| m_globals := InitStatistics g; m_hw := h; m_uart := out |}
  end.

(** [n] turns of the loop. *)
Fixpoint main_loop (n : nat) (fuel : nat) (hw : adc_hw) (m : machine)
    : option machine :=
  match n with
  | O => Some m
  | S n' =>
      match main_loop_body fuel hw m with
      | None => None
      | Some m' => main_loop n' fuel hw m'
      end
  end.

Definition main (rounds : nat) (fuel : nat) (hw : adc_hw) : option machine :=
  match main_init fuel hw with
  | None => None
  | Some m => main_loop rounds fuel hw m
  end.

(** ** Vocabulary of the properties *)

(** The voltage [AdcResult] computes for channel [i] from the raw sample
    [raw] (the other channel reads 0). *)
Definition calibrate (i : nat) (raw : Z) : spec_float :=
  AdcResult (replicate NUM_ADC_CHANNELS F32.zero)
    (<[i := raw]> (replicate NUM_ADC_CHANNELS 0)) !!! i.

(** The ideal transfer functions: 3.3 V over 2^16 codes around mid-scale, and
    3.3 V over 2^12 codes from zero. *)
Definition ideal_differential (raw : Z) : Q :=
  (inject_Z (raw - 32768) * (33 # 10) / inject_Z 65536)%Q.

Definition ideal_single_ended (raw : Z) : Q :=
  (inject_Z raw * (33 # 10) / inject_Z 4096)%Q.

(** 2^-22: one unit in the last place of a binary32 number in [2, 4). *)
Definition volt_tolerance : Q := 1 # 4194304.

(** The float literals [1.65f] and [3.3f]. *)
Definition f_1_65 : spec_float := F32.of_ratio 165 100.
Definition f_3_3 : spec_float := F32.of_ratio 33 10.

(** Strictly between the two sentinels of [InitStatistics]. *)
Definition inside_sentinels (v : spec_float) : bool :=
  F32.ltb (F32.opp (F32.of_Z 10)) v && F32.ltb v (F32.of_Z 10).

(** [P] on every integer of [lo, lo + 2^k). *)
Fixpoint all_range (k : nat) (P : Z -> bool) (lo : Z) : bool :=
  match k with
  | O => P lo
  | S k' => all_range k' P lo && all_range k' P (lo + 2 ^ Z.of_nat k')
  end.

(** Everything checked of the differential channel at one raw sample. *)
Definition differential_ok (raw : Z) : bool :=
  let v := calibrate 0 raw in
  F32.is_finite v
  && F32.within volt_tolerance v (ideal_differential raw)
  && F32.leb (F32.opp f_1_65) v && F32.ltb v f_1_65
  && Qle_bool (-(165 # 100)) (F32.to_Q v)
  && negb (Qle_bool (165 # 100) (F32.to_Q v))
  && inside_sentinels v.

(** Everything checked of the single-ended channel at one raw sample. *)
Definition single_ended_ok (raw : Z) : bool :=
  let v := calibrate 1 raw in
  F32.is_finite v
  && F32.within volt_tolerance v (ideal_single_ended raw)
  && F32.leb F32.zero v && F32.ltb v f_3_3
  && Qle_bool 0 (F32.to_Q v)
  && negb (Qle_bool (33 # 10) (F32.to_Q v))
  && inside_sentinels v.

(** The guard of [validCount++] for channel [i]. *)
Definition plausible (i : nat) (raw : Z) : bool :=
  if (i =? 0)%nat then (100 <? raw) && (raw <? 65435)
  else (10 <? raw) && (raw <? 4086).

(** The self-check on the raw samples [r0] and [r1]. *)
Definition self_check (r0 r1 : Z) : bool :=
  VerifyADCReadings (set_adcRawData [r0; r1] globals_at_reset).

(** One complete acquisition on [a]: trigger, [k] polls that see the flag
    low, the poll that sees it high, clear, read. *)
Definition acquisition (a : adc_instance) (k : nat) (raw : Z)
    : list hw_event :=
  ForceSOC a :: replicate k (GetInterruptStatus a false)
    ++ [GetInterruptStatus a true; ClearInterruptStatus a; ReadResult a raw].

(** An acquisition still polling after [k] polls. *)
Definition blocked_acquisition (a : adc_instance) (k : nat) : list hw_event :=
  ForceSOC a :: replicate k (GetInterruptStatus a false).

(** [m] is in [vs] and below (above) every element of [vs]. *)
Definition is_minimum (m : spec_float) (vs : list spec_float) : Prop :=
  m ∈ vs /\ forall v, v ∈ vs -> F32.leb m v = true.

Definition is_maximum (m : spec_float) (vs : list spec_float) : Prop :=
  m ∈ vs /\ forall v, v ∈ vs -> F32.leb v m = true.

(** The values channel [i] saw over a list of rounds. *)
Definition column {A : Type} `{Inhabited A} (i : nat) (rounds : list (list A))
    : list A :=
  map (fun r => r !!! i) rounds.

(** The first three statements of the loop body for the raw samples [read]:
    store them, convert them, update the statistics. *)
Definition sample_round (g : globals) (read : list Z) : globals :=
  let g := set_adcRawData read g in
  UpdateStatistics (set_adcVoltages (AdcResult (adcVoltages g) read) g).

(** [UpdateStatistics] on given voltages. *)
Definition feed (g : globals) (voltage : list spec_float) : globals :=
  UpdateStatistics (set_adcVoltages voltage g).

(** ** A test bench for the peripheral *)

Definition same_adc (a b : adc_instance) : bool :=
  match a, b with
  | myADCA, myADCA | myADCB, myADCB => true
  | _, _ => false
  end.

(** Polls of [a] since its last trigger, on a history given newest first. *)
Fixpoint polls_since_trigger (a : adc_instance) (newest_first : list hw_event)
    : nat :=
  match newest_first with
  | [] => 0
  | ForceSOC b :: older =>
      if same_adc a b then 0 else polls_since_trigger a older
  | GetInterruptStatus b _ :: older =>
      if same_adc a b then S (polls_since_trigger a older)
      else polls_since_trigger a older
  | _ :: older => polls_since_trigger a older
  end.

Fixpoint reads_so_far (a : adc_instance) (hist : list hw_event) : nat :=
  match hist with
  | [] => 0
  | ReadResult b _ :: rest =>
      if same_adc a b then S (reads_so_far a rest) else reads_so_far a rest
  | _ :: rest => reads_so_far a rest
  end.

(** A converter that raises ADCINT1 at the [latency]-th poll after a trigger
    and whose [n]-th result on [a] is [signal a n]. *)
Definition bench_hw (latency : nat) (signal : adc_instance -> nat -> Z)
    : adc_hw :=
  {| hw_status hist a := (latency <=? polls_since_trigger a (rev hist))%nat;
     hw_result hist a := signal a (reads_so_far a hist) |}.

(** A converter that never raises ADCINT1. *)
Definition stuck_hw : adc_hw :=
  {| hw_status _ _ := false; hw_result _ _ := 0 |}.

(** Constant inputs: 1.0 V differential (raw 52627), mid-scale single-ended. *)
Definition steady_signal (a : adc_instance) (n : nat) : Z :=
  match a with
  | myADCA => 52627
  | myADCB => 2000
  end.

Definition statistics_of (out : list uart_item) : list stats_report :=
  omap (fun item => match item with Statistics rep => Some rep | _ => None end)
    out.

Definition readings_of (out : list uart_item) : list (list spec_float) :=
  omap (fun item =>
          match item with Readings _ _ v => Some v | _ => None end) out.

(** ** One channel's statistics window *)

(** [minVoltages[i]], [maxVoltages[i]], [sumVoltages[i]]. *)
Definition window_of (g : globals) (i : nat)
    : spec_float * spec_float * spec_float :=
  (minVoltages g !!! i, maxVoltages g !!! i, sumVoltages g !!! i).

(** The window [InitStatistics] leaves: the two sentinels and a zero sum. *)
Definition window_reset : spec_float * spec_float * spec_float :=
  (F32.of_Z 10, F32.opp (F32.of_Z 10), F32.zero).

(** What one pass of the body of [UpdateStatistics] does to the window of its
    channel for the voltage [v]. *)
Definition window_step (w : spec_float * spec_float * spec_float)
    (v : spec_float) : spec_float * spec_float * spec_float :=
  let '(mn, mx, sm) := w in
  (if F32.ltb v mn then v else mn, if F32.ltb mx v then v else mx,
   F32.add sm v).


(** The row [DisplayStatistics] prints for channel [i] with the divisor
    [sampleCount]. *)
Definition row_of (g : globals) (sampleCount : Z) (i : nat) : stats_row :=
  {| row_min := minVoltages g !!! i;
     row_max := maxVoltages g !!! i;
     row_avg := F32.div (sumVoltages g !!! i) (F32.of_Z sampleCount);
     row_peakToPeak :=
       F32.mul (F32.sub (maxVoltages g !!! i) (minVoltages g !!! i))
         (F32.of_Z 1000) |}.

(** Two raw samples, each within the resolution of its channel: 16 bits for
    the differential channel 0, 12 bits for the single-ended channel 1. *)
Definition valid_read (read : list Z) : bool :=
  match read with
  | [r0; r1] => (0 <=? r0) && (r0 <=? 65535) && (0 <=? r1) && (r1 <=? 4095)
  | _ => false
  end.

(** The voltages channel [i] sees over the rounds [reads]. *)
Definition voltages_of (i : nat) (reads : list (list Z)) : list spec_float :=
  calibrate i <$> column i reads.

(** The 12-bit codes of [lo, lo + n) that the single-ended guard rejects (the
    differential sample being rejected too). *)
Definition rejected_codes (lo n : Z) : list Z :=
  filter (fun r => self_check 0 r = false) (seqZ lo n).

(** The row of a window that holds nothing but the values of
    [InitStatistics]: the sentinels, a zero average, and
    (-10 - 10) * 1000 as peak-to-peak. *)
Definition sentinel_row : stats_row :=
  {| row_min := F32.of_Z 10;
     row_max := F32.opp (F32.of_Z 10);
     row_avg := F32.zero;
     row_peakToPeak := F32.of_Z (-20000) |}.

(** ** The monitoring loop on given samples *)

(** Two values of type [uint16_t]. *)
Definition uint16_pair (read : list Z) : bool :=
  match read with
  | [r0; r1] => (0 <=? r0) && (r0 <? 65536) && (0 <=? r1) && (r1 <? 65536)
  | _ => false
  end.

(** The turns of the loop whose conversions return the samples [reads], one
    list per turn: the final globals and the serial output of these turns. *)
Fixpoint run_rounds (g : globals) (reads : list (list Z))
    : globals * list uart_item :=
  match reads with
  | [] => (g, [])
  | read :: rest =>
      let '(g1, out1) := main_loop_after_conversion (set_adcRawData read g) in
      let '(g2, out2) := run_rounds g1 rest in
      (g2, out1 ++ out2)
  end.

(** What [AdcResult] leaves in [adcVoltages] for the samples [read]. *)
Definition volts_of_read (read : list Z) : list spec_float :=
  [calibrate 0 (read !!! 0%nat); calibrate 1 (read !!! 1%nat)].

(** The "Reading #t" tables of consecutive turns that print no statistics. *)
Fixpoint readings_from (t : Z) (reads : list (list Z)) : list uart_item :=
  match reads with
  | [] => []
  | read :: rest =>
      Readings t read (volts_of_read read) :: readings_from (t + 1) rest
  end.

(** The statistics are due in the turn that starts with [testIteration = t]. *)
Definition statistics_due (t : Z) : bool :=
  (0 <? t) && (t mod TEST_ITERATIONS =? 0).

(** ** More vocabulary: the converter *)

(** After any history, the flag of either converter is seen high within [n]
    polls. *)
Definition raises_within (n : nat) (hw : adc_hw) : Prop :=
  forall (hist : list hw_event) (a : adc_instance),
  exists k, (k < n)%nat /\
    hw_status hw (hist ++ replicate k (GetInterruptStatus a false)) a = true.

(** ** More vocabulary: the whole range of a channel *)

(** The two lines of [AdcResult], each as a function of its raw sample. *)
Definition calibrate_differential (raw : Z) : spec_float :=
  F32.mul (F32.of_Z (raw - 32768)) DIFFERENTIAL.

Definition calibrate_single_ended (raw : Z) : spec_float :=
  F32.mul (F32.of_Z raw) SINGLE_ENDED.

(** One pass over the [2 ^ k] arguments of [f] from [lo] on, each value
    computed once: the values at both ends, provided [P] holds of every
    argument and its value, and [f] increases from each argument to the
    next. *)
Fixpoint increasing_scan (k : nat) (f : Z -> spec_float)
    (P : Z -> spec_float -> bool) (lo : Z)
    : option (spec_float * spec_float) :=
  match k with
  | O => let v := f lo in if P lo v then Some (v, v) else None
  | S k' =>
      match increasing_scan k' f P lo,
            increasing_scan k' f P (lo + 2 ^ Z.of_nat k') with
      | Some (a, b), Some (c, d) =>
          if F32.ltb b c then Some (a, d) else None
      | _, _ => None
      end
  end.

Definition scanned (k : nat) (f : Z -> spec_float)
    (P : Z -> spec_float -> bool) (lo : Z) : bool :=
  match increasing_scan k f P lo with
  | Some _ => true
  | None => false
  end.

(** The single-ended voltage [v] of a 16-bit value: finite, not negative,
    and below the +10 sentinel exactly up to raw 12412. *)
Definition single_ended_uint16_ok (raw : Z) (v : spec_float) : bool :=
  F32.is_finite v
  && F32.leb F32.zero v
  && Bool.eqb (F32.ltb v (F32.of_Z 10)) (raw <=? 12412).

(** ** More vocabulary: the cadence of the tables *)

(** The number of turns with a counter in [0, t) in which the statistics are
    due: the positive multiples of 10 below [t]. *)
Definition tables_before (t : Z) : Z := (Z.max t 1 - 1) / 10.

(** ** lab_main.c: the serial transmit functions *)

(** What a function sends with [SCI_writeCharBlockingFIFO], as a string. *)

#[global] Instance ascii_inhabited : Inhabited ascii :=
  populate Ascii.zero.

(** [(num % 10) + '0'] *)
Definition digit_char (d : Z) : ascii :=
  Ascii.ascii_of_N (Z.to_N (d + 48)).

(** [while (num > 0) { buffer[i++] = (num % 10) + '0'; num /= 10; }] on a
    buffer with [room] free elements from index [i] on: [None] when the loop
    would write past the end of the buffer. *)
Fixpoint fill_digits (room : nat) (num : Z) (buffer : list ascii)
    (i : nat) : option (list ascii * nat) :=
  if 0 <? num then
    match room with
    | O => None
    | S room' =>
        fill_digits room' (num / 10)
          (<[i := digit_char (num mod 10)]> buffer) (S i)
    end
  else Some (buffer, i).

(** [for (j = i - 1; j >= 0; j--) UARTSendChar(buffer[j]);] *)
Fixpoint send_down (buffer : list ascii) (i : nat) : string :=
  match i with
  | O => EmptyString
  | S j => String (buffer !!! j) (send_down buffer j)
  end.

(** [buffer] is what the 12 elements of the local array hold on entry. *)
Definition UARTSendUInt (buffer : list ascii) (num : Z)
    : option string :=
  if num =? 0 then Some "0"%string
  else
    match fill_digits 12 num buffer 0 with
    | Some (b, i) => Some (send_down b i)
    | None => None
    end.

Definition UARTSendInt (buffer : list ascii) (num : Z)
    : option string :=
  let isNeg := num <? 0 in
  let num := if isNeg then int32 (- num) else num in
  if num =? 0 then Some "0"%string
  else
    match fill_digits 12 num buffer 0 with
    | Some (b, i) =>
        Some (String.append (if isNeg then "-"%string else EmptyString)
                (send_down b i))
    | None => None
    end.

(** The integer a finite number is truncated to by a conversion to an
    integer type. *)
Definition f32_trunc (x : spec_float) : option Z :=
  match x with
  | S754_zero _ => Some 0
  | S754_finite s m e =>
      let a := match e with
               | Zneg p => Z.shiftr (Zpos m) (Zpos p)
               | _ => Zpos m * 2 ^ e
               end in
      Some (if s then - a else a)
  | _ => None
  end.

(** [(int32_t) x] and [(uint32_t) x], where C defines them. *)
Definition f32_to_int32 (x : spec_float) : option Z :=
  match f32_trunc x with
  | Some z => if (- 2 ^ 31 <=? z) && (z <? 2 ^ 31) then Some z else None
  | None => None
  end.

Definition f32_to_uint32 (x : spec_float) : option Z :=
  match f32_trunc x with
  | Some z => if (0 <=? z) && (z <? 2 ^ 32) then Some z else None
  | None => None
  end.

(** [bufferI] and [bufferU] are the initial contents of the local arrays of
    the calls to [UARTSendInt] and [UARTSendUInt]. *)
Definition UARTSendFloat (bufferI bufferU : list ascii)
    (value : spec_float) : option string :=
  match f32_to_int32 value with
  | None => None
  | Some intPart =>
      let fracPart := SFabs (F32.sub value (F32.of_Z intPart)) in
      match
        f32_to_uint32
          (F32.add (F32.mul fracPart (F32.of_Z 1000)) (F32.of_ratio 1 2))
      with
      | None => None
      | Some fracInt =>
          match UARTSendInt bufferI intPart, UARTSendUInt bufferU fracInt with
          | Some int_text, Some frac_text =>
              let sign : string :=
                if F32.ltb value F32.zero && (intPart =? 0)
                then "-"%string else EmptyString in
              let zero100 : string :=
                if fracInt <? 100 then "0"%string else EmptyString in
              let zero10 : string :=
                if fracInt <? 10 then "0"%string else EmptyString in
              Some (String.concat EmptyString
                      [sign; int_text; "."%string; zero100; zero10;
                       frac_text])
          | _, _ => None
          end
      end
  end.

(** [DisplayReadings], the raw column: padding to five characters, then the
    number. *)
Definition DisplayReadings_raw_field (buffer : list ascii) (raw : Z)
    : option string :=
  match UARTSendUInt buffer raw with
  | Some digits =>
      let pad (limit : Z) : string :=
        if raw <? limit then " "%string else EmptyString in
      Some (String.concat EmptyString
              [pad 10000; pad 1000; pad 100; pad 10; digits])
  | None => None
  end.

(** ** Reading the text back *)

Definition digit_value (c : ascii) : option Z :=
  let n := Z.of_N (Ascii.N_of_ascii c) in
  if (48 <=? n) && (n <=? 57) then Some (n - 48) else None.

Definition is_digit (c : ascii) : Prop := is_Some (digit_value c).

(** The number a string of decimal digits denotes, after the digits [acc]. *)
Fixpoint decimal_value_from (acc : Z) (s : string) : option Z :=
  match s with
  | EmptyString => Some acc
  | String c rest =>
      match digit_value c with
      | Some d => decimal_value_from (acc * 10 + d) rest
      | None => None
      end
  end.

Definition decimal_value (s : string) : option Z :=
  match s with
  | EmptyString => None
  | _ => decimal_value_from 0 s
  end.

(** A decimal number without superfluous leading zero. *)
Definition canonical_decimal (s : string) (n : Z) : Prop :=
  decimal_value s = Some n /\ (n <> 0 -> String.get 0 s <> Some "0"%char).

(** The number [buffer[0 .. k)] holds, least significant digit first. *)
Fixpoint le_value (buffer : list ascii) (k : nat) : Z :=
  match k with
  | O => 0
  | S j =>
      le_value buffer j
      + default 0 (digit_value (buffer !!! j)) * 10 ^ Z.of_nat j
  end.

Fixpoint drop_spaces (s : string) : string :=
  match s with
  | String " " rest => drop_spaces rest
  | _ => s
  end.

(** A fixed-point text [-]digits.digits: its value and the number of digits
    after the point. *)
Definition fixed_point_value (s : string) : option (Q * nat) :=
  let '(negative, body) :=
    match s with
    | String "-" rest => (true, rest)
    | _ => (false, s)
    end in
  match String.index 0 "." body with
  | Some p =>
      let int_text := String.substring 0 p body in
      let frac_text := String.substring (S p) (String.length body - S p) body in
      match decimal_value int_text, decimal_value frac_text with
      | Some a, Some b =>
          let q := (inject_Z a
                    + inject_Z b / inject_Z (10 ^ Z.of_nat (String.length frac_text)))%Q in
          Some (if negative then (- q)%Q else q, String.length frac_text)
      | _, _ => None
      end
  | None => None
  end.

(** The raw samples whose voltage has a fraction that rounds up to 1000
    thousandths. *)
Definition fraction_carries (i : nat) (raw : Z) : bool :=
  if (i =? 0)%nat
  then ((12909 <=? raw) && (raw <=? 12918))
       || ((52618 <=? raw) && (raw <=? 52627))
  else (raw =? 1241) || (raw =? 2482).

(** What is checked of the text of the voltage [v] of the raw sample [raw]
    of channel [i]. *)
Definition voltage_text_ok (i : nat) (raw : Z) (v : spec_float) : bool :=
  match
    UARTSendFloat (replicate 12 Ascii.zero) (replicate 12 Ascii.zero) v
  with
  | Some text =>
      match fixed_point_value text with
      | Some (q, digits) =>
          if fraction_carries i raw
          then (digits =? 4)%nat
               && Qle_bool (89 # 100) (Qabs (q - F32.to_Q v))
          else (digits =? 3)%nat
               && Qle_bool (Qabs (q - F32.to_Q v)) (501 # 1000000)
      | None => false
      end
  | None => false
  end.

(** * Properties *)

(** ** The constants *)

Lemma DIFFERENTIAL_value : DIFFERENTIAL = S754_finite false 13841203 (-38).
Proof. vm_compute. reflexivity. Qed.

Lemma SINGLE_ENDED_value : SINGLE_ENDED = S754_finite false 13841203 (-34).
Proof. vm_compute. reflexivity. Qed.

(** Both literals are read to within half a unit in the last place (2^-39
    and 2^-35), and both scale factors are the binary32 number 3.3f divided
    by a power of two. *)
Lemma scale_factors_nearest :
  F32.within (1 # 2 ^ 39) DIFFERENTIAL (503540039 # 10 ^ 13) = true /\
  F32.within (1 # 2 ^ 35) SINGLE_ENDED (80566406 # 10 ^ 11) = true /\
  F32.to_Q DIFFERENTIAL == F32.to_Q f_3_3 / inject_Z 65536 /\
  F32.to_Q SINGLE_ENDED == F32.to_Q f_3_3 / inject_Z 4096.
Proof. repeat split; vm_compute; reflexivity. Qed.

Lemma sentinels_value :
  F32.of_Z 10 = S754_finite false 10485760 (-20) /\
  F32.opp (F32.of_Z 10) = S754_finite true 10485760 (-20) /\
  F32.of_Z 1000 = S754_finite false 16384000 (-14).
Proof. repeat split; vm_compute; reflexivity. Qed.

(** ** Exhaustive checks over a range of raw samples *)

Lemma all_range_spec (k : nat) : forall (P : Z -> bool) (lo : Z),
  all_range k P lo = true ->
  forall z, lo <= z < lo + 2 ^ Z.of_nat k -> P z = true.
Proof.
  induction k as [|k IH]; intros P lo H z Hz.
  - simpl in *. assert (z = lo) by lia. subst. exact H.
  - cbn [all_range] in H. apply andb_true_iff in H as [H1 H2].
    rewrite Nat2Z.inj_succ, Z.pow_succ_r in Hz by lia.
    destruct (Z_lt_ge_dec z (lo + 2 ^ Z.of_nat k)).
    + apply (IH P lo H1). lia.
    + apply (IH P _ H2). lia.
Qed.

Lemma differential_ok_all (raw : Z) :
  0 <= raw <= 65535 -> differential_ok raw = true.
Proof.
  intros Hraw.
  assert (Hall : all_range 16 differential_ok 0 = true)
    by (vm_compute; reflexivity).
  apply (all_range_spec 16 _ 0 Hall). simpl. lia.
Qed.

Lemma single_ended_ok_all (raw : Z) :
  0 <= raw <= 4095 -> single_ended_ok raw = true.
Proof.
  intros Hraw.
  assert (Hall : all_range 12 single_ended_ok 0 = true)
    by (vm_compute; reflexivity).
  apply (all_range_spec 12 _ 0 Hall). simpl. lia.
Qed.

(** ** AdcResult *)

(** Each output of [AdcResult] is a function of the raw sample of its own
    channel alone. *)
Lemma AdcResult_calibrate (voltage : list spec_float) (read : list Z)
    (i : nat) :
  length voltage = NUM_ADC_CHANNELS -> (i < NUM_ADC_CHANNELS)%nat ->
  AdcResult voltage read !!! i = calibrate i (read !!! i).
Proof.
  intros Hlen Hi.
  destruct voltage as [|a [|b [|c voltage]]]; try discriminate Hlen.
  destruct i as [|[|i]]; [reflexivity | reflexivity |].
  unfold NUM_ADC_CHANNELS in Hi. lia.
Qed.

Lemma AdcResult_length (voltage : list spec_float) (read : list Z) :
  length (AdcResult voltage read) = length voltage.
Proof. unfold AdcResult. now rewrite !length_insert. Qed.

Lemma int32_small (z : Z) : - 2 ^ 31 <= z < 2 ^ 31 -> int32 z = z.
Proof. intros H. unfold int32. rewrite Z.mod_small; lia. Qed.

Lemma calibrate_0_eq (raw : Z) :
  0 <= raw <= 65535 ->
  calibrate 0 raw = F32.mul (F32.of_Z (raw - 32768)) DIFFERENTIAL.
Proof.
  intros H. unfold calibrate, AdcResult. cbn [NUM_ADC_CHANNELS replicate].
  change (<[0%nat:=raw]> [0; 0] !!! 0%nat) with raw.
  rewrite (int32_small raw) by lia. rewrite int32_small by lia.
  reflexivity.
Qed.

Lemma calibrate_1_eq (raw : Z) :
  calibrate 1 raw = F32.mul (F32.of_Z raw) SINGLE_ENDED.
Proof. reflexivity. Qed.

(** ** Order of binary32 numbers *)

Ltac cmp_split :=
  repeat match goal with
    | H : context [Z.compare ?a ?b] |- _ => destruct (Z.compare_spec a b)
    | H : context [Pos.compare ?a ?b] |- _ => destruct (Pos.compare_spec a b)
    | |- context [Z.compare ?a ?b] => destruct (Z.compare_spec a b)
    | |- context [Pos.compare ?a ?b] => destruct (Pos.compare_spec a b)
    end.

Ltac float_order :=
  unfold F32.leb, F32.ltb, SFleb, SFltb, SFcompare, F32.is_nan in *;
  repeat match goal with
    | x : spec_float |- _ => destruct x
    | s : bool |- _ => destruct s
    end;
  change (Pos.compare_cont Eq) with Pos.compare in *;
  simpl in *; try congruence; cmp_split; simpl in *; try congruence; try lia.

Lemma ltb_not_nan (x y : spec_float) :
  F32.ltb x y = true -> F32.is_nan x = false /\ F32.is_nan y = false.
Proof. intros H. split; float_order. Qed.

Lemma ltb_leb (x y : spec_float) : F32.ltb x y = true -> F32.leb x y = true.
Proof. intros H. float_order. Qed.

Lemma leb_refl (x : spec_float) : F32.is_nan x = false -> F32.leb x x = true.
Proof. intros H. float_order. Qed.

Lemma ltb_false_leb (x y : spec_float) :
  F32.is_nan x = false -> F32.is_nan y = false ->
  F32.ltb x y = false -> F32.leb y x = true.
Proof. intros Hx Hy H. float_order. Qed.

Lemma leb_trans (x y z : spec_float) :
  F32.leb x y = true -> F32.leb y z = true -> F32.leb x z = true.
Proof. intros H1 H2. float_order. Qed.

Lemma inside_sentinels_spec (v : spec_float) :
  inside_sentinels v = true ->
  F32.ltb v (F32.of_Z 10) = true /\ F32.ltb (F32.opp (F32.of_Z 10)) v = true /\
  F32.is_nan v = false.
Proof.
  unfold inside_sentinels. intros H. apply andb_true_iff in H as [H1 H2].
  repeat split; try assumption. apply (ltb_not_nan _ _ H2).
Qed.

(** ** UpdateStatistics, channel by channel *)

Lemma for_loop_channels {S : Type} (body : nat -> S -> S) (s : S) :
  for_loop NUM_ADC_CHANNELS body s = body 1%nat (body 0%nat s).
Proof. reflexivity. Qed.

Lemma wf_globals_lengths (g : globals) (i : nat) :
  wf_globals g -> (i < NUM_ADC_CHANNELS)%nat ->
  (i < length (adcRawData g))%nat /\ (i < length (adcVoltages g))%nat /\
  (i < length (minVoltages g))%nat /\ (i < length (maxVoltages g))%nat /\
  (i < length (avgVoltages g))%nat /\ (i < length (sumVoltages g))%nat.
Proof. unfold wf_globals. intros (-> & -> & -> & -> & -> & ->) Hi. tauto. Qed.

Lemma UpdateStatistics_body_frame (i : nat) (g : globals) :
  adcRawData (UpdateStatistics_body i g) = adcRawData g /\
  adcVoltages (UpdateStatistics_body i g) = adcVoltages g /\
  testIteration (UpdateStatistics_body i g) = testIteration g /\
  avgVoltages (UpdateStatistics_body i g) = avgVoltages g /\
  (wf_globals g -> wf_globals (UpdateStatistics_body i g)).
Proof.
  destruct g as [raw volt ti mn mx av sm].
  unfold UpdateStatistics_body, wf_globals; cbn.
  destruct (F32.ltb (volt !!! i) (mn !!! i)); cbn;
    destruct (F32.ltb (mx !!! i) (volt !!! i)); cbn;
    rewrite ?length_insert; tauto.
Qed.

Lemma UpdateStatistics_body_window (i j : nat) (g : globals) :
  wf_globals g -> (i < NUM_ADC_CHANNELS)%nat ->
  window_of (UpdateStatistics_body i g) j
  = if decide (i = j) then window_step (window_of g i) (adcVoltages g !!! i)
    else window_of g j.
Proof.
  intros Hwf Hi. destruct (wf_globals_lengths g i Hwf Hi) as (_ & _ & Hmn & Hmx & _ & Hsm).
  destruct g as [raw volt ti mn mx av sm].
  unfold UpdateStatistics_body, window_of, window_step; cbn in *.
  destruct (decide (i = j)) as [<-|Hne].
  - destruct (F32.ltb (volt !!! i) (mn !!! i)); cbn;
      destruct (F32.ltb (mx !!! i) (volt !!! i)); cbn;
      rewrite ?list_lookup_total_insert_eq by assumption; reflexivity.
  - destruct (F32.ltb (volt !!! i) (mn !!! i)); cbn;
      destruct (F32.ltb (mx !!! i) (volt !!! i)); cbn;
      rewrite ?list_lookup_total_insert_ne by assumption; reflexivity.
Qed.

Lemma UpdateStatistics_frame (g : globals) :
  adcRawData (UpdateStatistics g) = adcRawData g /\
  adcVoltages (UpdateStatistics g) = adcVoltages g /\
  testIteration (UpdateStatistics g) = testIteration g /\
  avgVoltages (UpdateStatistics g) = avgVoltages g /\
  (wf_globals g -> wf_globals (UpdateStatistics g)).
Proof.
  unfold UpdateStatistics. rewrite for_loop_channels.
  destruct (UpdateStatistics_body_frame 0 g) as (R0 & V0 & T0 & A0 & W0).
  destruct (UpdateStatistics_body_frame 1 (UpdateStatistics_body 0 g))
    as (R1 & V1 & T1 & A1 & W1).
  split; [congruence | split; [congruence | split; [congruence |]]].
  split; [congruence | auto].
Qed.

Lemma UpdateStatistics_window (g : globals) (i : nat) :
  wf_globals g -> (i < NUM_ADC_CHANNELS)%nat ->
  window_of (UpdateStatistics g) i
  = window_step (window_of g i) (adcVoltages g !!! i).
Proof.
  intros Hwf Hi. unfold UpdateStatistics. rewrite for_loop_channels.
  destruct (UpdateStatistics_body_frame 0 g) as (_ & V0 & _ & _ & W0).
  rewrite UpdateStatistics_body_window by (auto; unfold NUM_ADC_CHANNELS; lia).
  rewrite V0.
  rewrite !UpdateStatistics_body_window by (auto; unfold NUM_ADC_CHANNELS; lia).
  unfold NUM_ADC_CHANNELS in Hi.
  destruct i as [|[|i]]; [reflexivity | reflexivity | lia].
Qed.

(** ** One channel's window *)

Lemma elem_of_snoc_last {A : Type} (l : list A) (x : A) : x ∈ l ++ [x].
Proof. apply elem_of_app. right. now apply list_elem_of_singleton. Qed.

Lemma elem_of_snoc_front {A : Type} (l : list A) (x y : A) :
  y ∈ l -> y ∈ l ++ [x].
Proof. intros H. apply elem_of_app. now left. Qed.

Lemma window_step_snoc (w : spec_float * spec_float * spec_float)
    (vs : list spec_float) (v : spec_float) :
  foldl window_step w (vs ++ [v]) = window_step (foldl window_step w vs) v.
Proof. now rewrite foldl_app. Qed.

(** From the sentinels, a window fed values that lie between them holds their
    minimum, their maximum and their sum, accumulated in feeding order. *)
Lemma window_fold (vs : list spec_float) :
  Forall (fun v => inside_sentinels v = true) vs ->
  let '(mn, mx, sm) := foldl window_step window_reset vs in
  sm = foldl F32.add F32.zero vs /\
  ((vs = [] /\ mn = F32.of_Z 10 /\ mx = F32.opp (F32.of_Z 10)) \/
   (is_minimum mn vs /\ is_maximum mx vs)).
Proof.
  induction vs as [|v vs IH] using rev_ind; intros Hvs.
  - cbn. split; [reflexivity | left; repeat split; reflexivity].
  - apply Forall_app in Hvs as [Hvs Hv]. apply Forall_inv in Hv.
    specialize (IH Hvs). rewrite window_step_snoc.
    destruct (foldl window_step window_reset vs) as [[mn mx] sm].
    destruct IH as [Hsm Hmm]. cbn [window_step].
    destruct (inside_sentinels_spec v Hv) as (Hlt & Hgt & Hnan).
    split; [rewrite foldl_app; cbn; congruence |]. right.
    assert (Hin : forall w, w ∈ vs -> F32.is_nan w = false).
    { intros w Hw. rewrite Forall_forall in Hvs.
      apply (inside_sentinels_spec w (Hvs w Hw)). }
    destruct Hmm as [(-> & -> & ->) | [[Hmn1 Hmn2] [Hmx1 Hmx2]]].
    + rewrite Hlt, Hgt. cbn.
      split; (split; [now apply list_elem_of_singleton |]); intros w Hw;
        apply list_elem_of_singleton in Hw; subst w; now apply leb_refl.
    + split.
      * destruct (F32.ltb v mn) eqn:E.
        -- split; [apply elem_of_snoc_last |]. intros w Hw.
           apply elem_of_app in Hw as [Hw | Hw].
           ++ apply leb_trans with mn; [now apply ltb_leb | auto].
           ++ apply list_elem_of_singleton in Hw. subst w. now apply leb_refl.
        -- split; [now apply elem_of_snoc_front |]. intros w Hw.
           apply elem_of_app in Hw as [Hw | Hw]; [auto |].
           apply list_elem_of_singleton in Hw. subst w.
           apply ltb_false_leb; auto.
      * destruct (F32.ltb mx v) eqn:E.
        -- split; [apply elem_of_snoc_last |]. intros w Hw.
           apply elem_of_app in Hw as [Hw | Hw].
           ++ apply leb_trans with mx; [auto | now apply ltb_leb].
           ++ apply list_elem_of_singleton in Hw. subst w. now apply leb_refl.
        -- split; [now apply elem_of_snoc_front |]. intros w Hw.
           apply elem_of_app in Hw as [Hw | Hw]; [auto |].
           apply list_elem_of_singleton in Hw. subst w.
           apply ltb_false_leb; auto.
Qed.

(** ** InitStatistics and DisplayStatistics *)

Lemma InitStatistics_eq (g : globals) :
  wf_globals g ->
  InitStatistics g =
  {| adcRawData := adcRawData g; adcVoltages := adcVoltages g;
     testIteration := testIteration g;
     minVoltages := [F32.of_Z 10; F32.of_Z 10];
     maxVoltages := [F32.opp (F32.of_Z 10); F32.opp (F32.of_Z 10)];
     avgVoltages := [F32.zero; F32.zero];
     sumVoltages := [F32.zero; F32.zero] |}.
Proof.
  intros (_ & _ & Hmn & Hmx & Hav & Hsm).
  destruct g as [raw volt ti mn mx av sm]; cbn in *.
  destruct mn as [|? [|? [|? ?]]]; try discriminate Hmn.
  destruct mx as [|? [|? [|? ?]]]; try discriminate Hmx.
  destruct av as [|? [|? [|? ?]]]; try discriminate Hav.
  destruct sm as [|? [|? [|? ?]]]; try discriminate Hsm.
  reflexivity.
Qed.

Lemma InitStatistics_wf (g : globals) :
  wf_globals g -> wf_globals (InitStatistics g).
Proof.
  intros Hwf. rewrite (InitStatistics_eq g Hwf).
  destruct Hwf as (? & ? & _). repeat split; assumption || reflexivity.
Qed.

Lemma InitStatistics_window (g : globals) (i : nat) :
  wf_globals g -> (i < NUM_ADC_CHANNELS)%nat ->
  window_of (InitStatistics g) i = window_reset.
Proof.
  intros Hwf Hi. rewrite (InitStatistics_eq g Hwf).
  unfold NUM_ADC_CHANNELS in Hi.
  destruct i as [|[|i]]; [reflexivity | reflexivity | lia].
Qed.

Lemma DisplayStatistics_eq (g : globals) :
  wf_globals g ->
  DisplayStatistics g =
  (set_avgVoltages
     [F32.div (sumVoltages g !!! 0%nat)
        (F32.of_Z (DisplayStatistics_sampleCount g));
      F32.div (sumVoltages g !!! 1%nat)
        (F32.of_Z (DisplayStatistics_sampleCount g))] g,
   {| rep_sampleCount := DisplayStatistics_sampleCount g;
      rep_rows := [row_of g (DisplayStatistics_sampleCount g) 0;
                   row_of g (DisplayStatistics_sampleCount g) 1] |}).
Proof.
  intros (_ & _ & _ & _ & Hav & _). unfold DisplayStatistics.
  generalize (DisplayStatistics_sampleCount g). intros n.
  destruct g as [raw volt ti mn mx av sm]; cbn in Hav.
  destruct av as [|? [|? [|? ?]]]; try discriminate Hav.
  reflexivity.
Qed.

Lemma DisplayStatistics_sampleCount_range (g : globals) :
  1 <= DisplayStatistics_sampleCount g <= 10.
Proof.
  unfold DisplayStatistics_sampleCount, TEST_ITERATIONS.
  pose proof (Z.mod_pos_bound (testIteration g) 10 eq_refl).
  destruct (Z.eqb_spec (testIteration g mod 10) 0); lia.
Qed.

(** ** Rounds of sampling *)

Lemma set_adcVoltages_wf (g : globals) (vs : list spec_float) :
  wf_globals g -> length vs = NUM_ADC_CHANNELS ->
  wf_globals (set_adcVoltages vs g).
Proof. unfold wf_globals; cbn. tauto. Qed.

Lemma set_adcRawData_wf (g : globals) (read : list Z) :
  wf_globals g -> length read = NUM_ADC_CHANNELS ->
  wf_globals (set_adcRawData read g).
Proof. unfold wf_globals; cbn. tauto. Qed.

Lemma feed_window (g : globals) (vs : list spec_float) (i : nat) :
  wf_globals g -> length vs = NUM_ADC_CHANNELS ->
  (i < NUM_ADC_CHANNELS)%nat ->
  window_of (feed g vs) i = window_step (window_of g i) (vs !!! i).
Proof.
  intros Hwf Hvs Hi. unfold feed.
  now rewrite UpdateStatistics_window by auto using set_adcVoltages_wf.
Qed.

Lemma feed_wf (g : globals) (vs : list spec_float) :
  wf_globals g -> length vs = NUM_ADC_CHANNELS -> wf_globals (feed g vs).
Proof.
  intros Hwf Hvs. unfold feed.
  apply UpdateStatistics_frame. now apply set_adcVoltages_wf.
Qed.

Lemma feed_all_window (rounds : list (list spec_float)) (i : nat) :
  forall g : globals,
  wf_globals g ->
  Forall (fun vs => length vs = NUM_ADC_CHANNELS) rounds ->
  (i < NUM_ADC_CHANNELS)%nat ->
  wf_globals (foldl feed g rounds) /\
  window_of (foldl feed g rounds) i
  = foldl window_step (window_of g i) (column i rounds).
Proof.
  induction rounds as [|vs rounds IH]; intros g Hwf Hall Hi.
  - split; [assumption | reflexivity].
  - inversion Hall as [|? ? Hvs Hrest]; subst. cbn [foldl column map].
    destruct (IH (feed g vs)) as [IH1 IH2]; auto using feed_wf.
    split; [assumption |]. rewrite IH2. now rewrite feed_window.
Qed.

Lemma valid_read_inv (read : list Z) :
  valid_read read = true ->
  exists r0 r1, read = [r0; r1] /\ 0 <= r0 <= 65535 /\ 0 <= r1 <= 4095.
Proof.
  destruct read as [|r0 [|r1 [|? ?]]]; try discriminate. cbn.
  intros H. exists r0, r1. split; [reflexivity |]. lia.
Qed.

Lemma valid_read_length (read : list Z) :
  valid_read read = true -> length read = NUM_ADC_CHANNELS.
Proof. intros H. destruct (valid_read_inv read H) as (? & ? & -> & _). easy. Qed.

Lemma length_two {A : Type} `{Inhabited A} (l : list A) :
  length l = NUM_ADC_CHANNELS -> l = [l !!! 0%nat; l !!! 1%nat].
Proof. destruct l as [|? [|? [|? ?]]]; try discriminate. reflexivity. Qed.

Lemma AdcResult_eq (voltage : list spec_float) (read : list Z) :
  length voltage = NUM_ADC_CHANNELS ->
  AdcResult voltage read
  = [calibrate 0 (read !!! 0%nat); calibrate 1 (read !!! 1%nat)].
Proof.
  intros Hlen.
  rewrite (length_two (AdcResult voltage read))
    by now rewrite AdcResult_length.
  now rewrite !AdcResult_calibrate by (auto; unfold NUM_ADC_CHANNELS; lia).
Qed.

Lemma sample_round_feed (g : globals) (read : list Z) :
  sample_round g read
  = feed (set_adcRawData read g) (AdcResult (adcVoltages g) read).
Proof. reflexivity. Qed.

Lemma sample_round_window (g : globals) (read : list Z) (i : nat) :
  wf_globals g -> length read = NUM_ADC_CHANNELS ->
  (i < NUM_ADC_CHANNELS)%nat ->
  wf_globals (sample_round g read) /\
  window_of (sample_round g read) i
  = window_step (window_of g i) (calibrate i (read !!! i)).
Proof.
  intros Hwf Hread Hi. rewrite sample_round_feed.
  assert (Hv : length (AdcResult (adcVoltages g) read) = NUM_ADC_CHANNELS).
  { rewrite AdcResult_length. apply Hwf. }
  split.
  - apply feed_wf; [now apply set_adcRawData_wf | assumption].
  - rewrite feed_window by (auto using set_adcRawData_wf).
    rewrite AdcResult_calibrate by (auto; apply Hwf). reflexivity.
Qed.

Lemma sample_rounds_window (reads : list (list Z)) (i : nat) :
  forall g : globals,
  wf_globals g ->
  Forall (fun r => valid_read r = true) reads ->
  (i < NUM_ADC_CHANNELS)%nat ->
  wf_globals (foldl sample_round g reads) /\
  window_of (foldl sample_round g reads) i
  = foldl window_step (window_of g i) (voltages_of i reads).
Proof.
  induction reads as [|r reads IH]; intros g Hwf Hall Hi.
  - split; [assumption | reflexivity].
  - inversion Hall as [|? ? Hr Hrest]; subst.
    destruct (sample_round_window g r i) as [W1 W2];
      auto using valid_read_length.
    destruct (IH (sample_round g r)) as [IH1 IH2]; auto.
    split; [assumption |]. cbn [foldl]. rewrite IH2, W2. reflexivity.
Qed.

Lemma calibrate_inside_sentinels (read : list Z) (i : nat) :
  valid_read read = true -> (i < NUM_ADC_CHANNELS)%nat ->
  inside_sentinels (calibrate i (read !!! i)) = true.
Proof.
  intros Hr Hi. destruct (valid_read_inv read Hr) as (r0 & r1 & -> & H0 & H1).
  unfold NUM_ADC_CHANNELS in Hi. destruct i as [|[|i]]; [| | lia].
  - pose proof (differential_ok_all r0 H0) as Hok. unfold differential_ok in Hok.
    repeat (apply andb_true_iff in Hok as [Hok ?]). assumption.
  - pose proof (single_ended_ok_all r1 H1) as Hok. unfold single_ended_ok in Hok.
    repeat (apply andb_true_iff in Hok as [Hok ?]). assumption.
Qed.

Lemma voltages_inside_sentinels (reads : list (list Z)) (i : nat) :
  Forall (fun r => valid_read r = true) reads -> (i < NUM_ADC_CHANNELS)%nat ->
  Forall (fun v => inside_sentinels v = true) (voltages_of i reads).
Proof.
  intros Hall Hi. unfold voltages_of, column.
  induction Hall as [|r reads Hr Hrest IH]; cbn; constructor; auto.
  now apply calibrate_inside_sentinels.
Qed.

(** After at least one round from a reset, the window of each channel holds
    the minimum, the maximum and the running sum of the voltages seen. *)
Lemma window_after_rounds (g : globals) (reads : list (list Z)) (i : nat) :
  wf_globals g -> reads <> [] ->
  Forall (fun r => valid_read r = true) reads ->
  (i < NUM_ADC_CHANNELS)%nat ->
  let gn := foldl sample_round (InitStatistics g) reads in
  is_minimum (minVoltages gn !!! i) (voltages_of i reads) /\
  is_maximum (maxVoltages gn !!! i) (voltages_of i reads) /\
  sumVoltages gn !!! i = foldl F32.add F32.zero (voltages_of i reads).
Proof.
  intros Hwf Hne Hall Hi gn.
  destruct (sample_rounds_window reads i (InitStatistics g)) as [_ Hw];
    auto using InitStatistics_wf.
  rewrite InitStatistics_window in Hw by assumption.
  pose proof (window_fold (voltages_of i reads)
                (voltages_inside_sentinels reads i Hall Hi)) as Hf.
  fold gn in Hw. unfold window_of in Hw. rewrite <- Hw in Hf.
  destruct Hf as [Hsum [(Hnil & _) | [Hmin Hmax]]].
  - destruct reads; [congruence | discriminate Hnil].
  - auto.
Qed.

(** ** Calibration *)

Lemma differential_ok_inv (raw : Z) :
  0 <= raw <= 65535 ->
  let v := calibrate 0 raw in
  F32.is_finite v = true /\
  F32.within volt_tolerance v (ideal_differential raw) = true /\
  F32.leb (F32.opp f_1_65) v = true /\ F32.ltb v f_1_65 = true /\
  (- (165 # 100) <= F32.to_Q v)%Q /\ (F32.to_Q v < 165 # 100)%Q /\
  inside_sentinels v = true.
Proof.
  intros Hraw v. pose proof (differential_ok_all raw Hraw) as Hok.
  unfold differential_ok in Hok. fold v in Hok.
  repeat (apply andb_true_iff in Hok as [Hok ?]).
  repeat split; try assumption.
  - now apply Qle_bool_iff.
  - apply Qnot_le_lt. intros Hle. apply Qle_bool_iff in Hle.
    destruct (Qle_bool (165 # 100) (F32.to_Q v)); discriminate.
Qed.

Lemma single_ended_ok_inv (raw : Z) :
  0 <= raw <= 4095 ->
  let v := calibrate 1 raw in
  F32.is_finite v = true /\
  F32.within volt_tolerance v (ideal_single_ended raw) = true /\
  F32.leb F32.zero v = true /\ F32.ltb v f_3_3 = true /\
  (0 <= F32.to_Q v)%Q /\ (F32.to_Q v < 33 # 10)%Q /\
  inside_sentinels v = true.
Proof.
  intros Hraw v. pose proof (single_ended_ok_all raw Hraw) as Hok.
  unfold single_ended_ok in Hok. fold v in Hok.
  repeat (apply andb_true_iff in Hok as [Hok ?]).
  repeat split; try assumption.
  - now apply Qle_bool_iff.
  - apply Qnot_le_lt. intros Hle. apply Qle_bool_iff in Hle.
    destruct (Qle_bool (33 # 10) (F32.to_Q v)); discriminate.
Qed.

(** C2. Differential channel (16 bits, 3.3 V full scale). For every raw sample
    in [0, 65535], whatever the arrays held before, [AdcResult] stores in
    [voltage[0]] the binary32 product of [(float)(raw - 32768)] and
    [DIFFERENTIAL], a finite number within 2^-22 V of
    [(raw - 32768) * 3.3 / 65536]. Mid-scale gives 0, raw 0 gives [-1.65f],
    and raw 65535 gives [1.65f - DIFFERENTIAL], which is 1.65 V less one LSB
    within the same tolerance. *)
Theorem differential_calibration (raw : Z) :
  0 <= raw <= 65535 ->
  (forall (voltage : list spec_float) (read : list Z),
     length voltage = NUM_ADC_CHANNELS -> read !!! 0%nat = raw ->
     AdcResult voltage read !!! 0%nat = calibrate 0 raw) /\
  calibrate 0 raw = F32.mul (F32.of_Z (raw - 32768)) DIFFERENTIAL /\
  F32.is_finite (calibrate 0 raw) = true /\
  F32.within volt_tolerance (calibrate 0 raw) (ideal_differential raw) = true /\
  calibrate 0 32768 = F32.zero /\
  calibrate 0 0 = F32.opp f_1_65 /\
  F32.within volt_tolerance (calibrate 0 0) (- (165 # 100)) = true /\
  calibrate 0 65535 = F32.sub f_1_65 DIFFERENTIAL /\
  F32.within volt_tolerance (calibrate 0 65535)
    ((165 # 100) - (33 # 10) / inject_Z 65536) = true.
Proof.
  intros Hraw.
  destruct (differential_ok_inv raw Hraw) as (Hfin & Htol & _).
  split; [| split; [| split; [| split]]].
  - intros voltage read Hlen <-.
    apply AdcResult_calibrate; [assumption | unfold NUM_ADC_CHANNELS; lia].
  - now apply calibrate_0_eq.
  - exact Hfin.
  - exact Htol.
  - repeat split; vm_compute; reflexivity.
Qed.

Lemma differential_calibration_witness :
  0 <= 33768 <= 65535 /\
  calibrate 0 33768 = F32.mul (F32.of_Z (33768 - 32768)) DIFFERENTIAL /\
  F32.within volt_tolerance (calibrate 0 33768) (ideal_differential 33768)
  = true.
Proof.
  split; [lia |].
  destruct (differential_calibration 33768) as (_ & H1 & _ & H2 & _); [lia |].
  split; assumption.
Defined.

(** C3. Single-ended channel (12 bits, 3.3 V full scale). For every raw sample
    in [0, 4095], whatever the arrays held before, [AdcResult] stores in
    [voltage[1]] the binary32 product of [(float)raw] and [SINGLE_ENDED], a
    finite number within 2^-22 V of [raw * 3.3 / 4096]. Raw 0 gives 0 and raw
    4095 gives [3.3f - SINGLE_ENDED], which is 3.3 V less one LSB within the
    same tolerance. *)
Theorem single_ended_calibration (raw : Z) :
  0 <= raw <= 4095 ->
  (forall (voltage : list spec_float) (read : list Z),
     length voltage = NUM_ADC_CHANNELS -> read !!! 1%nat = raw ->
     AdcResult voltage read !!! 1%nat = calibrate 1 raw) /\
  calibrate 1 raw = F32.mul (F32.of_Z raw) SINGLE_ENDED /\
  F32.is_finite (calibrate 1 raw) = true /\
  F32.within volt_tolerance (calibrate 1 raw) (ideal_single_ended raw) = true /\
  calibrate 1 0 = F32.zero /\
  calibrate 1 4095 = F32.sub f_3_3 SINGLE_ENDED /\
  F32.within volt_tolerance (calibrate 1 4095)
    ((33 # 10) - (33 # 10) / inject_Z 4096) = true.
Proof.
  intros Hraw.
  destruct (single_ended_ok_inv raw Hraw) as (Hfin & Htol & _).
  split; [| split; [| split; [| split]]].
  - intros voltage read Hlen <-.
    apply AdcResult_calibrate; [assumption | unfold NUM_ADC_CHANNELS; lia].
  - apply calibrate_1_eq.
  - exact Hfin.
  - exact Htol.
  - repeat split; vm_compute; reflexivity.
Qed.

Lemma single_ended_calibration_witness :
  0 <= 2000 <= 4095 /\
  calibrate 1 2000 = F32.mul (F32.of_Z 2000) SINGLE_ENDED /\
  F32.within volt_tolerance (calibrate 1 2000) (ideal_single_ended 2000)
  = true.
Proof.
  split; [lia |].
  destruct (single_ended_calibration 2000) as (_ & H1 & _ & H2 & _); [lia |].
  split; assumption.
Defined.

(** ** The statistics window *)

Lemma minimum_le_maximum (mn mx : spec_float) (vs : list spec_float) :
  is_minimum mn vs -> is_maximum mx vs -> F32.leb mn mx = true.
Proof. intros [_ Hmn] [Hmx _]. now apply Hmn. Qed.

Lemma window_step_reset (v : spec_float) :
  inside_sentinels v = true ->
  window_step window_reset v = (v, v, F32.add F32.zero v).
Proof.
  intros Hv. apply inside_sentinels_spec in Hv as (Hlt & Hgt & _).
  unfold window_step, window_reset. now rewrite Hlt, Hgt.
Qed.

Lemma window_of_min (g : globals) (i : nat) (w : spec_float * spec_float * spec_float) :
  window_of g i = w -> minVoltages g !!! i = fst (fst w).
Proof. now intros <-. Qed.

Lemma window_of_max (g : globals) (i : nat) (w : spec_float * spec_float * spec_float) :
  window_of g i = w -> maxVoltages g !!! i = snd (fst w).
Proof. now intros <-. Qed.

(** The first round after a reset leaves the voltage itself as minimum and as
    maximum of each channel. *)
Lemma first_round_min_max (g : globals) (read : list Z) :
  wf_globals g -> valid_read read = true ->
  minVoltages (sample_round (InitStatistics g) read)
  = [calibrate 0 (read !!! 0%nat); calibrate 1 (read !!! 1%nat)] /\
  maxVoltages (sample_round (InitStatistics g) read)
  = [calibrate 0 (read !!! 0%nat); calibrate 1 (read !!! 1%nat)].
Proof.
  intros Hwf Hread.
  assert (H2 : forall i, (i < NUM_ADC_CHANNELS)%nat ->
             wf_globals (sample_round (InitStatistics g) read) /\
             window_of (sample_round (InitStatistics g) read) i
             = (calibrate i (read !!! i), calibrate i (read !!! i),
                F32.add F32.zero (calibrate i (read !!! i)))).
  { intros i Hi.
    destruct (sample_round_window (InitStatistics g) read i) as [W1 W2];
      auto using InitStatistics_wf, valid_read_length.
    split; [exact W1 |]. rewrite W2, InitStatistics_window by assumption.
    apply window_step_reset. now apply calibrate_inside_sentinels. }
  destruct (H2 0%nat) as [Hwf1 W0]; [unfold NUM_ADC_CHANNELS; lia |].
  destruct (H2 1%nat) as [_ W1]; [unfold NUM_ADC_CHANNELS; lia |].
  destruct Hwf1 as (_ & _ & Lmn & Lmx & _).
  rewrite (length_two _ Lmn), (length_two _ Lmx).
  rewrite (window_of_min _ _ _ W0), (window_of_min _ _ _ W1).
  rewrite (window_of_max _ _ _ W0), (window_of_max _ _ _ W1).
  split; reflexivity.
Qed.

(** C9. For raw samples within the resolution of their channels, the
    differential voltage lies in [-1.65, 1.65) and the single-ended voltage in
    [0, 3.3), as binary32 comparisons and on the exact values, hence strictly
    between the sentinels -10 and +10. The first update after
    [InitStatistics] therefore replaces both sentinels of both channels by the
    voltage, and after any number of further rounds min <= max on each
    channel. *)
Theorem calibrated_voltages_replace_sentinels (g : globals) (r0 r1 : Z)
    (reads : list (list Z)) :
  wf_globals g -> valid_read [r0; r1] = true ->
  Forall (fun r => valid_read r = true) reads ->
  AdcResult (adcVoltages g) [r0; r1] = [calibrate 0 r0; calibrate 1 r1] /\
  (F32.leb (F32.opp f_1_65) (calibrate 0 r0) = true /\
   F32.ltb (calibrate 0 r0) f_1_65 = true /\
   (- (165 # 100) <= F32.to_Q (calibrate 0 r0))%Q /\
   (F32.to_Q (calibrate 0 r0) < 165 # 100)%Q) /\
  (F32.leb F32.zero (calibrate 1 r1) = true /\
   F32.ltb (calibrate 1 r1) f_3_3 = true /\
   (0 <= F32.to_Q (calibrate 1 r1))%Q /\
   (F32.to_Q (calibrate 1 r1) < 33 # 10)%Q) /\
  (inside_sentinels (calibrate 0 r0) = true /\
   inside_sentinels (calibrate 1 r1) = true) /\
  (minVoltages (sample_round (InitStatistics g) [r0; r1])
   = [calibrate 0 r0; calibrate 1 r1] /\
   maxVoltages (sample_round (InitStatistics g) [r0; r1])
   = [calibrate 0 r0; calibrate 1 r1]) /\
  (forall i, (i < NUM_ADC_CHANNELS)%nat ->
     F32.leb
       (minVoltages
          (foldl sample_round (InitStatistics g) ([r0; r1] :: reads)) !!! i)
       (maxVoltages
          (foldl sample_round (InitStatistics g) ([r0; r1] :: reads)) !!! i)
     = true).
Proof.
  intros Hwf Hread Hreads.
  destruct (valid_read_inv _ Hread) as (r0' & r1' & Hr & H0 & H1).
  injection Hr as <- <-.
  destruct (differential_ok_inv r0 H0) as (_ & _ & A1 & A2 & A3 & A4 & A5).
  destruct (single_ended_ok_inv r1 H1) as (_ & _ & B1 & B2 & B3 & B4 & B5).
  split; [apply (AdcResult_eq _ [r0; r1]), Hwf |].
  split; [auto |]. split; [auto |]. split; [auto |].
  split; [exact (first_round_min_max g [r0; r1] Hwf Hread) |].
  intros i Hi.
  assert (Hall : Forall (fun r => valid_read r = true) ([r0; r1] :: reads))
    by now constructor.
  destruct (window_after_rounds g ([r0; r1] :: reads) i Hwf
              ltac:(discriminate) Hall Hi) as (Hmn & Hmx & _).
  exact (minimum_le_maximum _ _ _ Hmn Hmx).
Qed.

Lemma calibrated_voltages_replace_sentinels_witness :
  wf_globals globals_at_reset /\ valid_read [50; 2000] = true /\
  Forall (fun r => valid_read r = true) [[65535; 0]; [0; 4095]] /\
  minVoltages (sample_round (InitStatistics globals_at_reset) [50; 2000])
  = [calibrate 0 50; calibrate 1 2000].
Proof.
  assert (Hwf : wf_globals globals_at_reset) by (repeat split).
  assert (Hall : Forall (fun r => valid_read r = true)
                   [[65535; 0]; [0; 4095]])
    by (repeat constructor).
  split; [exact Hwf |]. split; [reflexivity |]. split; [exact Hall |].
  exact (proj1 (proj1 (proj2 (proj2 (proj2 (proj2
    (calibrated_voltages_replace_sentinels globals_at_reset 50 2000
       [[65535; 0]; [0; 4095]] Hwf eq_refl Hall))))))).
Defined.

(** C8. In every statistics table, whatever the state, the row of channel [i]
    carries [minVoltages[i]] and [maxVoltages[i]] unscaled, in volts, and in
    its P-P(mV) column the binary32 value [(max - min) * 1000.0f]. When the
    window was filled by at least one round since [InitStatistics], these are
    the minimum and the maximum of the voltages of the window. *)
Theorem peak_to_peak_in_millivolts (g : globals) (read : list Z)
    (reads : list (list Z)) :
  wf_globals g -> valid_read read = true ->
  Forall (fun r => valid_read r = true) reads ->
  (exists row0 row1,
     rep_rows (snd (DisplayStatistics g)) = [row0; row1] /\
     forall i row, [row0; row1] !! i = Some row ->
       row_min row = minVoltages g !!! i /\
       row_max row = maxVoltages g !!! i /\
       row_peakToPeak row
       = F32.mul (F32.sub (row_max row) (row_min row)) (F32.of_Z 1000)) /\
  let gn := foldl sample_round (InitStatistics g) (read :: reads) in
  exists row0 row1,
    rep_rows (snd (DisplayStatistics gn)) = [row0; row1] /\
    forall i row, [row0; row1] !! i = Some row ->
      is_minimum (row_min row) (voltages_of i (read :: reads)) /\
      is_maximum (row_max row) (voltages_of i (read :: reads)) /\
      row_peakToPeak row
      = F32.mul (F32.sub (row_max row) (row_min row)) (F32.of_Z 1000).
Proof.
  intros Hwf Hread Hreads.
  assert (Hrows : forall g', wf_globals g' ->
            exists row0 row1,
              rep_rows (snd (DisplayStatistics g')) = [row0; row1] /\
              forall i row, [row0; row1] !! i = Some row ->
                row_min row = minVoltages g' !!! i /\
                row_max row = maxVoltages g' !!! i /\
                row_peakToPeak row
                = F32.mul (F32.sub (row_max row) (row_min row))
                    (F32.of_Z 1000)).
  { intros g' Hwf'. rewrite (DisplayStatistics_eq g' Hwf'). cbn [snd rep_rows].
    eexists _, _. split; [reflexivity |]. intros i row Hrow.
    destruct i as [|[|i]]; cbn in Hrow; try discriminate;
      injection Hrow as <-; repeat split; reflexivity. }
  split; [now apply Hrows |]. intros gn.
  assert (Hall : Forall (fun r => valid_read r = true) (read :: reads))
    by now constructor.
  assert (Hwfn : wf_globals gn).
  { apply (sample_rounds_window (read :: reads) 0%nat);
      auto using InitStatistics_wf. unfold NUM_ADC_CHANNELS; lia. }
  destruct (Hrows gn Hwfn) as (row0 & row1 & Heq & Hrow).
  exists row0, row1. split; [exact Heq |]. intros i row Hi.
  destruct (Hrow i row Hi) as (Hmn & Hmx & Hpp).
  assert (Hlt : (i < NUM_ADC_CHANNELS)%nat).
  { apply lookup_lt_Some in Hi. exact Hi. }
  destruct (window_after_rounds g (read :: reads) i Hwf ltac:(discriminate)
              Hall Hlt) as (Wmn & Wmx & _).
  fold gn in Wmn, Wmx.
  split; [now rewrite Hmn | split; [now rewrite Hmx | exact Hpp]].
Qed.

Lemma peak_to_peak_in_millivolts_witness :
  wf_globals globals_at_reset /\ valid_read [32768; 2000] = true /\
  Forall (fun r => valid_read r = true) [[33768; 2100]; [32268; 1900]] /\
  exists row0 row1,
    rep_rows (snd (DisplayStatistics globals_at_reset)) = [row0; row1].
Proof.
  assert (Hwf : wf_globals globals_at_reset) by (repeat split).
  assert (Hall : Forall (fun r => valid_read r = true)
                   [[33768; 2100]; [32268; 1900]])
    by (repeat constructor).
  split; [exact Hwf |]. split; [reflexivity |]. split; [exact Hall |].
  destruct (peak_to_peak_in_millivolts globals_at_reset [32768; 2000]
              [[33768; 2100]; [32268; 1900]] Hwf eq_refl Hall)
    as [(row0 & row1 & Heq & _) _].
  exists row0, row1. exact Heq.
Defined.

(** ** The self-check *)

Lemma VerifyADCReadings_eq (g : globals) (r0 r1 : Z) :
  adcRawData g = [r0; r1] ->
  VerifyADCReadings g = plausible 0 r0 || plausible 1 r1.
Proof.
  intros Hraw. unfold VerifyADCReadings. rewrite for_loop_channels.
  unfold VerifyADCReadings_body at 2. cbn [Nat.eqb]. rewrite Hraw.
  change ([r0; r1] !!! 0%nat) with r0. unfold plausible. cbn [Nat.eqb].
  destruct ((100 <? r0) && (r0 <? 65435));
    unfold VerifyADCReadings_body; cbn [Nat.eqb]; rewrite Hraw;
    change ([r0; r1] !!! 1%nat) with r1;
    destruct ((10 <? r1) && (r1 <? 4086)); reflexivity.
Qed.

Lemma self_check_eq (r0 r1 : Z) :
  self_check r0 r1 = plausible 0 r0 || plausible 1 r1.
Proof. now apply VerifyADCReadings_eq. Qed.

(** C5. [VerifyADCReadings] returns true exactly when the raw sample of at
    least one of the two channels passes the guard of its channel; with the
    differential sample 50 and the single-ended sample 2000 it returns true
    although the differential sample alone does not pass. *)
Theorem self_check_at_least_one (g : globals) (r0 r1 : Z) :
  adcRawData g = [r0; r1] ->
  (VerifyADCReadings g = true <->
   exists i, (i < NUM_ADC_CHANNELS)%nat /\
             plausible i (adcRawData g !!! i) = true) /\
  self_check 50 2000 = true /\ plausible 0 50 = false /\
  self_check 50 0 = false.
Proof.
  intros Hraw. split; [| repeat split; reflexivity].
  rewrite (VerifyADCReadings_eq g r0 r1 Hraw), Hraw, orb_true_iff. split.
  - intros [H | H]; [exists 0%nat | exists 1%nat];
      (split; [unfold NUM_ADC_CHANNELS; lia | exact H]).
  - intros (i & Hi & H). unfold NUM_ADC_CHANNELS in Hi.
    destruct i as [|[|i]]; [now left | now right | lia].
Qed.

Lemma self_check_at_least_one_witness :
  adcRawData (set_adcRawData [50; 2000] globals_at_reset) = [50; 2000] /\
  (VerifyADCReadings (set_adcRawData [50; 2000] globals_at_reset) = true <->
   exists i, (i < NUM_ADC_CHANNELS)%nat /\
     plausible i
       (adcRawData (set_adcRawData [50; 2000] globals_at_reset) !!! i) = true).
Proof.
  split; [reflexivity |].
  exact (proj1 (self_check_at_least_one
                  (set_adcRawData [50; 2000] globals_at_reset) 50 2000
                  eq_refl)).
Defined.

Lemma main_init_eq (fuel : nat) (hw : adc_hw) (read : list Z)
    (h : list hw_event) :
  AdcConversion fuel hw [] [0; 0] = (Some read, h) ->
  main_init fuel hw =
  Some {| m_globals :=
            InitStatistics
              (set_adcVoltages (AdcResult [F32.zero; F32.zero] read)
                 (set_adcRawData read globals_at_reset));
          m_hw := h;
          m_uart :=
            if VerifyADCReadings
                 (set_adcVoltages (AdcResult [F32.zero; F32.zero] read)
                    (set_adcRawData read globals_at_reset))
            then [InitializationPassed] else [InitializationWarning] |}.
Proof.
  intros Hconv. unfold main_init.
  change (adcRawData globals_at_reset) with [0; 0]. rewrite Hconv.
  reflexivity.
Qed.

(** C10. The guards of the self-check are strict: with the other channel
    rejected, the differential sample passes exactly when 100 < raw < 65435
    and the single-ended sample exactly when 10 < raw < 4086, so that 100,
    65435, 10 and 4086 are rejected; of the 4096 single-ended codes the guard
    rejects the 11 codes 0..10 at the low end and the 10 codes 4086..4095 at
    the high end. When the initial conversion returns two rejected samples,
    [VerifyADCReadings] is false, [main] reports the warning, and goes on to
    [InitStatistics] and the monitoring loop. *)
Theorem self_check_bounds_strict (fuel : nat) (hw : adc_hw) (r0 r1 : Z)
    (h : list hw_event) :
  AdcConversion fuel hw [] [0; 0] = (Some [r0; r1], h) ->
  plausible 0 r0 = false -> plausible 1 r1 = false ->
  (forall a b, self_check a b = true <->
               100 < a < 65435 \/ 10 < b < 4086) /\
  (forall a, self_check a 0 = true <-> 100 < a < 65435) /\
  (forall b, self_check 0 b = true <-> 10 < b < 4086) /\
  (self_check 100 0 = false /\ self_check 65435 0 = false /\
   self_check 0 10 = false /\ self_check 0 4086 = false) /\
  (rejected_codes 0 2048 = seqZ 0 11 /\
   rejected_codes 2048 2048 = seqZ 4086 10) /\
  self_check r0 r1 = false /\
  exists m,
    main_init fuel hw = Some m /\
    m_uart m = [InitializationWarning] /\
    m_globals m
    = InitStatistics
        (set_adcVoltages (AdcResult [F32.zero; F32.zero] [r0; r1])
           (set_adcRawData [r0; r1] globals_at_reset)) /\
    forall rounds, main rounds fuel hw = main_loop rounds fuel hw m.
Proof.
  intros Hconv Hp0 Hp1.
  assert (Hsc : forall a b, self_check a b = true <->
                            100 < a < 65435 \/ 10 < b < 4086).
  { intros a b. rewrite self_check_eq, orb_true_iff. unfold plausible. cbn.
    rewrite !andb_true_iff, !Z.ltb_lt. tauto. }
  split; [exact Hsc |].
  split; [intros a; rewrite Hsc; lia |].
  split; [intros b; rewrite Hsc; lia |].
  split; [repeat split; reflexivity |].
  split; [split; vm_compute; reflexivity |].
  split; [rewrite self_check_eq, Hp0, Hp1; reflexivity |].
  pose proof (main_init_eq fuel hw [r0; r1] h Hconv) as Hinit.
  rewrite (VerifyADCReadings_eq
             (set_adcVoltages (AdcResult [F32.zero; F32.zero] [r0; r1])
                (set_adcRawData [r0; r1] globals_at_reset)) r0 r1 eq_refl),
    Hp0, Hp1 in Hinit.
  cbn [orb] in Hinit.
  eexists. split; [exact Hinit |]. split; [reflexivity |].
  split; [reflexivity |]. intros rounds. unfold main. now rewrite Hinit.
Qed.

Lemma self_check_bounds_strict_witness :
  AdcConversion 4 (bench_hw 2 (fun a _ => match a with
                                          | myADCA => 65500
                                          | myADCB => 4
                                          end)) [] [0; 0]
  = (Some [65500; 4],
     acquisition myADCA 2 65500 ++ acquisition myADCB 2 4) /\
  plausible 0 65500 = false /\ plausible 1 4 = false /\
  self_check 65500 4 = false.
Proof.
  split; [reflexivity |]. split; [reflexivity |]. split; [reflexivity |].
  exact (proj1 (proj2 (proj2 (proj2 (proj2 (proj2
    (self_check_bounds_strict 4
       (bench_hw 2 (fun a _ => match a with
                               | myADCA => 65500
                               | myADCB => 4
                               end))
       65500 4 _ eq_refl eq_refl eq_refl))))))).
Defined.

(** ** AdcConversion *)

Lemma wait_ADCINT1_shape (fuel : nat) (hw : adc_hw) (a : adc_instance) :
  forall hist : list hw_event,
  (exists k, (k < fuel)%nat /\
     wait_ADCINT1 fuel hw a hist
     = (true, hist ++ replicate k (GetInterruptStatus a false)
                ++ [GetInterruptStatus a true])) \/
  wait_ADCINT1 fuel hw a hist
  = (false, hist ++ replicate fuel (GetInterruptStatus a false)).
Proof.
  induction fuel as [|fuel IH]; intros hist.
  - right. cbn. now rewrite app_nil_r.
  - cbn [wait_ADCINT1]. destruct (hw_status hw hist a) eqn:E.
    + left. exists 0%nat. split; [lia | reflexivity].
    + destruct (IH (hist ++ [GetInterruptStatus a false]))
        as [(k & Hk & ->) | ->].
      * left. exists (S k). split; [lia |]. now rewrite <- app_assoc.
      * right. now rewrite <- app_assoc.
Qed.

Lemma acquire_shape (fuel : nat) (hw : adc_hw) (a : adc_instance)
    (hist : list hw_event) :
  (exists k raw, (k < fuel)%nat /\ 0 <= raw < 65536 /\
     acquire fuel hw a hist = (Some raw, hist ++ acquisition a k raw)) \/
  acquire fuel hw a hist = (None, hist ++ blocked_acquisition a fuel).
Proof.
  unfold acquire, acquisition, blocked_acquisition.
  destruct (wait_ADCINT1_shape fuel hw a (hist ++ [ForceSOC a]))
    as [(k & Hk & ->) | ->].
  - left. eexists k, _. split; [exact Hk |]. split.
    + unfold uint16. apply Z.mod_pos_bound. lia.
    + f_equal. rewrite <- !app_assoc. reflexivity.
  - right. now rewrite <- app_assoc.
Qed.

(** C6. Whatever the converters answer and however long the run is observed,
    the driver calls of [AdcConversion] are, in this order: the trigger of
    ADCA, polls of ADCA's flag that see it low, the poll that sees it high,
    the clearing of that flag, the read of ADCA's result; then the same five
    steps on ADCB. A run that has not returned is blocked in one of the two
    polling loops after the trigger of that converter, and ADCB is not
    triggered before ADCA's result is read. *)
Theorem AdcConversion_sequence (fuel : nat) (hw : adc_hw)
    (hist : list hw_event) (read : list Z) :
  (exists kA kB r0 r1,
     (kA < fuel)%nat /\ (kB < fuel)%nat /\
     0 <= r0 < 65536 /\ 0 <= r1 < 65536 /\
     AdcConversion fuel hw hist read
     = (Some (<[1%nat := r1]> (<[0%nat := r0]> read)),
        hist ++ acquisition myADCA kA r0 ++ acquisition myADCB kB r1)) \/
  AdcConversion fuel hw hist read
  = (None, hist ++ blocked_acquisition myADCA fuel) \/
  (exists kA r0,
     (kA < fuel)%nat /\
     AdcConversion fuel hw hist read
     = (None, hist ++ acquisition myADCA kA r0
                ++ blocked_acquisition myADCB fuel)).
Proof.
  unfold AdcConversion.
  destruct (acquire_shape fuel hw myADCA hist)
    as [(kA & r0 & HkA & Hr0 & ->) | ->]; [| right; left; reflexivity].
  destruct (acquire_shape fuel hw myADCB (hist ++ acquisition myADCA kA r0))
    as [(kB & r1 & HkB & Hr1 & ->) | ->].
  - left. exists kA, kB, r0, r1. rewrite <- app_assoc. auto 10.
  - right. right. exists kA, r0. rewrite <- app_assoc. auto.
Qed.

(** ** A statistics table right after a reset *)

Lemma div_zero_sampleCount (n : Z) :
  1 <= n <= 10 -> F32.div F32.zero (F32.of_Z n) = F32.zero.
Proof.
  intros Hn.
  assert (H : n = 1 \/ n = 2 \/ n = 3 \/ n = 4 \/ n = 5 \/ n = 6 \/ n = 7 \/
              n = 8 \/ n = 9 \/ n = 10) by lia.
  repeat destruct H as [-> | H]; try subst n; reflexivity.
Qed.

Lemma InitStatistics_testIteration (g : globals) :
  testIteration (InitStatistics g) = testIteration g.
Proof. reflexivity. Qed.

(** C7, as stated, fails: asked right after a reset, the table is printed as
    for any batch, with the header of 10 readings and an average of 0.0 on
    both channels. *)
Lemma snapshot_after_reset_reports_zero_average :
  snd (DisplayStatistics (InitStatistics globals_at_reset))
  = {| rep_sampleCount := 10; rep_rows := [sentinel_row; sentinel_row] |} /\
  row_avg sentinel_row = F32.zero /\
  F32.is_nan (row_avg sentinel_row) = false.
Proof. repeat split; vm_compute; reflexivity. Qed.

(** C7, amended. Right after [InitStatistics], [DisplayStatistics] divides by
    a sample count between 1 and 10 taken from [testIteration], never by
    zero, and prints for each channel the sentinels +10 and -10 as minimum and
    maximum, 0.0 as average and -20000 as peak-to-peak; nothing in the table
    says that the window is empty. *)
Theorem snapshot_after_reset (g : globals) :
  wf_globals g ->
  1 <= rep_sampleCount (snd (DisplayStatistics (InitStatistics g))) <= 10 /\
  rep_sampleCount (snd (DisplayStatistics (InitStatistics g)))
  = (if testIteration g mod 10 =? 0 then 10 else testIteration g mod 10) /\
  rep_rows (snd (DisplayStatistics (InitStatistics g)))
  = [sentinel_row; sentinel_row].
Proof.
  intros Hwf.
  rewrite (DisplayStatistics_eq _ (InitStatistics_wf g Hwf)).
  cbn [snd rep_sampleCount rep_rows].
  pose proof (DisplayStatistics_sampleCount_range (InitStatistics g)) as Hn.
  split; [exact Hn |]. split; [reflexivity |].
  revert Hn. generalize (DisplayStatistics_sampleCount (InitStatistics g)).
  intros n Hn. unfold row_of. rewrite (InitStatistics_eq g Hwf).
  cbn [minVoltages maxVoltages sumVoltages].
  change ([F32.zero; F32.zero] !!! 0%nat) with F32.zero.
  change ([F32.zero; F32.zero] !!! 1%nat) with F32.zero.
  rewrite (div_zero_sampleCount _ Hn). reflexivity.
Qed.

Lemma snapshot_after_reset_witness :
  wf_globals (set_testIteration 13 globals_at_reset) /\
  rep_sampleCount
    (snd (DisplayStatistics
            (InitStatistics (set_testIteration 13 globals_at_reset)))) = 3.
Proof.
  assert (Hwf : wf_globals (set_testIteration 13 globals_at_reset))
    by (repeat split).
  split; [exact Hwf |].
  exact (proj1 (proj2 (snapshot_after_reset _ Hwf))).
Defined.

(** ** The monitoring loop *)

Lemma set_adcRawData_id (g : globals) : set_adcRawData (adcRawData g) g = g.
Proof. now destruct g. Qed.

Lemma sample_round_frame (g : globals) (read : list Z) :
  adcRawData (sample_round g read) = read /\
  adcVoltages (sample_round g read) = AdcResult (adcVoltages g) read /\
  testIteration (sample_round g read) = testIteration g.
Proof.
  unfold sample_round.
  destruct (UpdateStatistics_frame
              (set_adcVoltages (AdcResult (adcVoltages (set_adcRawData read g)) read)
                 (set_adcRawData read g))) as (-> & -> & -> & _).
  repeat split.
Qed.

Lemma sample_round_wf (g : globals) (read : list Z) :
  wf_globals g -> length read = NUM_ADC_CHANNELS ->
  wf_globals (sample_round g read).
Proof.
  intros Hwf Hlen. apply (sample_round_window g read 0); auto.
  unfold NUM_ADC_CHANNELS; lia.
Qed.

Lemma UpdateStatistics_body_set_testIteration (i : nat) (x : Z) (g : globals) :
  UpdateStatistics_body i (set_testIteration x g)
  = set_testIteration x (UpdateStatistics_body i g).
Proof.
  destruct g as [raw volt ti mn mx av sm]. unfold UpdateStatistics_body; cbn.
  destruct (F32.ltb (volt !!! i) (mn !!! i)); cbn;
    destruct (F32.ltb (mx !!! i) (volt !!! i)); reflexivity.
Qed.

Lemma sample_round_set_testIteration (x : Z) (g : globals) (read : list Z) :
  sample_round (set_testIteration x g) read
  = set_testIteration x (sample_round g read).
Proof.
  unfold sample_round, UpdateStatistics. rewrite !for_loop_channels.
  change (set_adcVoltages
            (AdcResult (adcVoltages (set_adcRawData read (set_testIteration x g))) read)
            (set_adcRawData read (set_testIteration x g)))
    with (set_testIteration x
            (set_adcVoltages
               (AdcResult (adcVoltages (set_adcRawData read g)) read)
               (set_adcRawData read g))).
  now rewrite !UpdateStatistics_body_set_testIteration.
Qed.

Lemma set_testIteration_twice (x y : Z) (g : globals) :
  set_testIteration x (set_testIteration y g) = set_testIteration x g.
Proof. reflexivity. Qed.

Lemma set_testIteration_wf (x : Z) (g : globals) :
  wf_globals g -> wf_globals (set_testIteration x g).
Proof. unfold wf_globals; cbn. tauto. Qed.

Lemma DisplayStatistics_testIteration (g : globals) :
  wf_globals g -> testIteration (fst (DisplayStatistics g)) = testIteration g.
Proof. intros Hwf. now rewrite (DisplayStatistics_eq g Hwf). Qed.

Lemma main_loop_after_conversion_unfold (g : globals) (read : list Z) :
  main_loop_after_conversion (set_adcRawData read g)
  = (let '(g', out) :=
       if statistics_due (testIteration (sample_round g read))
       then
         (InitStatistics (fst (DisplayStatistics (sample_round g read))),
          [Readings (testIteration (sample_round g read))
             (adcRawData (sample_round g read))
             (adcVoltages (sample_round g read))]
            ++ [Statistics (snd (DisplayStatistics (sample_round g read)))])
       else
         (sample_round g read,
          [Readings (testIteration (sample_round g read))
             (adcRawData (sample_round g read))
             (adcVoltages (sample_round g read))]) in
     (set_testIteration (uint32 (testIteration g' + 1)) g', out)).
Proof.
  unfold main_loop_after_conversion, statistics_due.
  change (UpdateStatistics
            (set_adcVoltages
               (AdcResult (adcVoltages (set_adcRawData read g))
                  (adcRawData (set_adcRawData read g)))
               (set_adcRawData read g)))
    with (sample_round g read).
  generalize (sample_round g read). intros g1.
  destruct ((0 <? testIteration g1)
            && (testIteration g1 mod TEST_ITERATIONS =? 0));
    [| reflexivity].
  now destruct (DisplayStatistics g1).
Qed.

(** A turn of the loop in which no statistics are due. *)
Lemma main_loop_after_conversion_quiet (g : globals) (read : list Z) :
  statistics_due (testIteration g) = false ->
  main_loop_after_conversion (set_adcRawData read g)
  = (set_testIteration (uint32 (testIteration g + 1)) (sample_round g read),
     [Readings (testIteration g) read (AdcResult (adcVoltages g) read)]).
Proof.
  intros Hdue. rewrite main_loop_after_conversion_unfold.
  destruct (sample_round_frame g read) as (Hr & Hv & Ht).
  rewrite !Ht, Hr, Hv, Hdue. now rewrite Ht.
Qed.

(** A turn of the loop in which the statistics are due. *)
Lemma main_loop_after_conversion_due (g : globals) (read : list Z) :
  wf_globals g -> length read = NUM_ADC_CHANNELS ->
  statistics_due (testIteration g) = true ->
  main_loop_after_conversion (set_adcRawData read g)
  = (set_testIteration (uint32 (testIteration g + 1))
       (InitStatistics (fst (DisplayStatistics (sample_round g read)))),
     [Readings (testIteration g) read (AdcResult (adcVoltages g) read);
      Statistics (snd (DisplayStatistics (sample_round g read)))]).
Proof.
  intros Hwf Hlen Hdue. rewrite main_loop_after_conversion_unfold.
  pose proof (DisplayStatistics_testIteration _
                (sample_round_wf g read Hwf Hlen)) as Ht.
  destruct (sample_round_frame g read) as (Hr & Hv & Ht').
  rewrite !Ht', Hr, Hv, Hdue.
  now rewrite InitStatistics_testIteration, Ht, Ht'.
Qed.

Lemma testIteration_set_testIteration (x : Z) (g : globals) :
  testIteration (set_testIteration x g) = x.
Proof. reflexivity. Qed.

Lemma set_testIteration_id (g : globals) (x : Z) :
  x = testIteration g -> set_testIteration x g = g.
Proof. intros ->. now destruct g. Qed.

Lemma foldl_sample_round_set_testIteration (x : Z) (reads : list (list Z)) :
  forall g : globals,
  foldl sample_round (set_testIteration x g) reads
  = set_testIteration x (foldl sample_round g reads).
Proof.
  induction reads as [|r reads IH]; intros g; [reflexivity |].
  cbn [foldl]. now rewrite sample_round_set_testIteration, IH.
Qed.

Lemma foldl_sample_round_testIteration (reads : list (list Z)) :
  forall g : globals,
  testIteration (foldl sample_round g reads) = testIteration g.
Proof.
  induction reads as [|r reads IH]; intros g; [reflexivity |].
  cbn [foldl]. rewrite IH. apply sample_round_frame.
Qed.

Lemma foldl_sample_round_wf (reads : list (list Z)) :
  forall g : globals,
  wf_globals g -> Forall (fun r => length r = NUM_ADC_CHANNELS) reads ->
  wf_globals (foldl sample_round g reads).
Proof.
  induction reads as [|r reads IH]; intros g Hwf Hall; [assumption |].
  inversion Hall; subst. cbn [foldl]. apply IH; auto using sample_round_wf.
Qed.

Lemma uint32_small (z : Z) : 0 <= z < 2 ^ 32 -> uint32 z = z.
Proof. intros H. unfold uint32. now apply Z.mod_small. Qed.

Lemma DisplayStatistics_wf (g : globals) :
  wf_globals g -> wf_globals (fst (DisplayStatistics g)).
Proof.
  intros Hwf. rewrite (DisplayStatistics_eq g Hwf). cbn [fst].
  unfold wf_globals in *; cbn. tauto.
Qed.

Lemma main_loop_after_conversion_wf (g : globals) (read : list Z) :
  wf_globals g -> length read = NUM_ADC_CHANNELS ->
  wf_globals (fst (main_loop_after_conversion (set_adcRawData read g))).
Proof.
  intros Hwf Hlen. destruct (statistics_due (testIteration g)) eqn:Hdue.
  - rewrite main_loop_after_conversion_due by assumption. cbn [fst].
    auto using set_testIteration_wf, InitStatistics_wf, DisplayStatistics_wf,
      sample_round_wf.
  - rewrite main_loop_after_conversion_quiet by assumption. cbn [fst].
    auto using set_testIteration_wf, sample_round_wf.
Qed.

Lemma run_rounds_app (reads1 reads2 : list (list Z)) :
  forall g : globals,
  run_rounds g (reads1 ++ reads2)
  = (fst (run_rounds (fst (run_rounds g reads1)) reads2),
     snd (run_rounds g reads1)
       ++ snd (run_rounds (fst (run_rounds g reads1)) reads2)).
Proof.
  induction reads1 as [|r reads1 IH]; intros g.
  - cbn. now destruct (run_rounds g reads2).
  - cbn [run_rounds app].
    destruct (main_loop_after_conversion (set_adcRawData r g)) as [g1 out1].
    rewrite IH. destruct (run_rounds g1 reads1) as [g2 out2]. cbn [fst snd].
    destruct (run_rounds g2 reads2) as [g3 out3]. cbn [fst snd].
    now rewrite app_assoc.
Qed.

(** Consecutive turns in which no statistics are due: the counter advances by
    one per turn, the windows accumulate every turn, and one table of
    readings is printed per turn. *)
Lemma run_rounds_quiet (reads : list (list Z)) :
  forall g : globals,
  wf_globals g -> 0 <= testIteration g ->
  testIteration g + Z.of_nat (length reads) < 2 ^ 32 ->
  Forall (fun r => length r = NUM_ADC_CHANNELS) reads ->
  (forall k, 0 <= k < Z.of_nat (length reads) ->
             statistics_due (testIteration g + k) = false) ->
  run_rounds g reads
  = (set_testIteration (testIteration g + Z.of_nat (length reads))
       (foldl sample_round g reads),
     readings_from (testIteration g) reads).
Proof.
  induction reads as [|r reads IH]; intros g Hwf Ht Hmax Hall Hquiet.
  - cbn. f_equal. symmetry. apply set_testIteration_id. lia.
  - inversion Hall as [|? ? Hr Hrest]; subst.
    cbn [run_rounds length] in *.
    rewrite main_loop_after_conversion_quiet
      by (rewrite <- (Z.add_0_r (testIteration g)); apply Hquiet; lia).
    rewrite uint32_small by lia.
    assert (Hwf1 : wf_globals
              (set_testIteration (testIteration g + 1) (sample_round g r)))
      by auto using set_testIteration_wf, sample_round_wf.
    specialize (IH _ Hwf1). rewrite testIteration_set_testIteration in IH.
    rewrite IH; [| lia | lia | exact Hrest |].
    + rewrite foldl_sample_round_set_testIteration, set_testIteration_twice.
      rewrite (AdcResult_eq _ r) by apply Hwf.
      cbn [foldl readings_from app]. do 2 f_equal. lia.
    + intros k Hk. rewrite <- Z.add_assoc. apply Hquiet. lia.
Qed.

Lemma window_fold_sum (vs : list spec_float) :
  forall w : spec_float * spec_float * spec_float,
  snd (foldl window_step w vs) = foldl F32.add (snd w) vs.
Proof.
  induction vs as [|v vs IH]; intros [[mn mx] sm]; [reflexivity |].
  cbn [foldl]. rewrite IH. reflexivity.
Qed.

Lemma window_of_sum (g : globals) (i : nat)
    (w : spec_float * spec_float * spec_float) :
  window_of g i = w -> sumVoltages g !!! i = snd w.
Proof. now intros <-. Qed.

Lemma window_step_sum (w : spec_float * spec_float * spec_float)
    (v : spec_float) :
  snd (window_step w v) = F32.add (snd w) v.
Proof. now destruct w as [[mn mx] sm]. Qed.

Lemma sample_round_sum (g : globals) (read : list Z) (i : nat) :
  wf_globals g -> length read = NUM_ADC_CHANNELS ->
  (i < NUM_ADC_CHANNELS)%nat ->
  sumVoltages (sample_round g read) !!! i
  = F32.add (sumVoltages g !!! i) (calibrate i (read !!! i)).
Proof.
  intros Hwf Hr Hi. destruct (sample_round_window g read i Hwf Hr Hi) as [_ W].
  rewrite (window_of_sum _ _ _ W). apply window_step_sum.
Qed.

Lemma sample_rounds_sum (reads : list (list Z)) (i : nat) :
  forall g : globals,
  wf_globals g ->
  Forall (fun r => length r = NUM_ADC_CHANNELS) reads ->
  (i < NUM_ADC_CHANNELS)%nat ->
  sumVoltages (foldl sample_round g reads) !!! i
  = foldl F32.add (sumVoltages g !!! i) (voltages_of i reads).
Proof.
  induction reads as [|r reads IH]; intros g Hwf Hall Hi; [reflexivity |].
  inversion Hall as [|? ? Hr Hrest]; subst. cbn [foldl].
  rewrite IH by auto using sample_round_wf.
  rewrite (sample_round_sum g r i Hwf Hr Hi). reflexivity.
Qed.

Lemma uint16_pair_length (read : list Z) :
  uint16_pair read = true -> length read = NUM_ADC_CHANNELS.
Proof. destruct read as [|? [|? [|? ?]]]; try discriminate. reflexivity. Qed.

Lemma uint16_pairs_length (reads : list (list Z)) :
  Forall (fun r => uint16_pair r = true) reads ->
  Forall (fun r => length r = NUM_ADC_CHANNELS) reads.
Proof.
  intros H. eapply Forall_impl; [exact H |]. exact uint16_pair_length.
Qed.

Lemma readings_from_app (reads1 reads2 : list (list Z)) :
  forall t : Z,
  readings_from t (reads1 ++ reads2)
  = readings_from t reads1
      ++ readings_from (t + Z.of_nat (length reads1)) reads2.
Proof.
  induction reads1 as [|r reads1 IH]; intros t; cbn [readings_from app length].
  - now rewrite Z.add_0_r.
  - rewrite IH. do 3 f_equal. lia.
Qed.

Lemma statistics_of_readings_from (reads : list (list Z)) :
  forall t : Z, statistics_of (readings_from t reads) = [].
Proof. induction reads as [|r reads IH]; intros t; cbn; auto. Qed.

Lemma readings_of_readings_from (reads : list (list Z)) :
  forall t : Z,
  readings_of (readings_from t reads) = volts_of_read <$> reads.
Proof.
  induction reads as [|r reads IH]; intros t; [reflexivity |].
  cbn [readings_from]. unfold readings_of in *. cbn. now rewrite IH.
Qed.

Lemma column_volts_of_read (i : nat) (reads : list (list Z)) :
  (i < NUM_ADC_CHANNELS)%nat ->
  column i (volts_of_read <$> reads) = voltages_of i reads.
Proof.
  intros Hi. unfold voltages_of, column.
  induction reads as [|r reads IH]; [reflexivity |].
  cbn. rewrite <- IH. f_equal. unfold NUM_ADC_CHANNELS in Hi.
  destruct i as [|[|i]]; [reflexivity | reflexivity | lia].
Qed.

(** A batch on given samples: turns in which no statistics are due, then the
    turn in which they are. The table is printed after the samples of all
    these turns, the last one included, went into the windows; it is headed
    by 10 readings; then the windows are reset. *)
Lemma run_rounds_batch (reads : list (list Z)) (last : list Z) (g : globals) :
  wf_globals g -> 0 <= testIteration g ->
  testIteration g + Z.of_nat (length reads) + 1 < 2 ^ 32 ->
  Forall (fun r => length r = NUM_ADC_CHANNELS) (reads ++ [last]) ->
  (forall k, 0 <= k < Z.of_nat (length reads) ->
             statistics_due (testIteration g + k) = false) ->
  statistics_due (testIteration g + Z.of_nat (length reads)) = true ->
  let filled :=
    set_testIteration (testIteration g + Z.of_nat (length reads))
      (foldl sample_round g (reads ++ [last])) in
  run_rounds g (reads ++ [last])
  = (set_testIteration (testIteration g + Z.of_nat (length reads) + 1)
       (InitStatistics (fst (DisplayStatistics filled))),
     readings_from (testIteration g) (reads ++ [last])
       ++ [Statistics (snd (DisplayStatistics filled))]) /\
  wf_globals filled /\
  rep_sampleCount (snd (DisplayStatistics filled)) = 10.
Proof.
  intros Hwf Ht Hmax Hall Hquiet Hdue filled.
  apply Forall_app in Hall as [Hall Hlast]. apply Forall_inv in Hlast.
  assert (Hfilled : filled
            = sample_round
                (set_testIteration
                   (testIteration g + Z.of_nat (length reads))
                   (foldl sample_round g reads)) last).
  { unfold filled. rewrite foldl_app. cbn [foldl].
    now rewrite sample_round_set_testIteration. }
  assert (Hwfq : wf_globals
            (set_testIteration (testIteration g + Z.of_nat (length reads))
               (foldl sample_round g reads)))
    by auto using set_testIteration_wf, foldl_sample_round_wf.
  assert (Hwff : wf_globals filled)
    by (rewrite Hfilled; auto using sample_round_wf).
  split; [| split; [exact Hwff |]].
  - rewrite run_rounds_app.
    rewrite (run_rounds_quiet reads g Hwf Ht ltac:(lia) Hall Hquiet).
    cbn [fst snd run_rounds].
    rewrite main_loop_after_conversion_due
      by (rewrite ?testIteration_set_testIteration; auto).
    rewrite testIteration_set_testIteration.
    change (adcVoltages (set_testIteration ?x ?g)) with (adcVoltages g).
    rewrite uint32_small by lia. rewrite <- Hfilled.
    rewrite readings_from_app. cbn [readings_from].
    rewrite (AdcResult_eq _ last)
      by (apply (foldl_sample_round_wf reads g Hwf Hall)).
    rewrite <- app_assoc. reflexivity.
  - rewrite (DisplayStatistics_eq filled Hwff). cbn [snd rep_sampleCount].
    unfold DisplayStatistics_sampleCount, filled.
    cbn [testIteration set_testIteration].
    unfold statistics_due in Hdue. apply andb_true_iff in Hdue as [_ Hdue].
    now rewrite Hdue.
Qed.

(** ** The program on a converter *)

Lemma AdcConversion_returns_pair (fuel : nat) (hw : adc_hw)
    (hist h : list hw_event) (read read' : list Z) :
  length read = NUM_ADC_CHANNELS ->
  AdcConversion fuel hw hist read = (Some read', h) ->
  uint16_pair read' = true.
Proof.
  intros Hlen. destruct read as [|a [|b [|c read]]]; try discriminate Hlen.
  unfold AdcConversion.
  destruct (acquire_shape fuel hw myADCA hist)
    as [(kA & r0 & _ & Hr0 & ->) | ->]; [| discriminate].
  destruct (acquire_shape fuel hw myADCB (hist ++ acquisition myADCA kA r0))
    as [(kB & r1 & _ & Hr1 & ->) | ->]; [| discriminate].
  intros [= <- _]. cbn. lia.
Qed.

Lemma main_loop_body_run (fuel : nat) (hw : adc_hw) (m m' : machine) :
  wf_globals (m_globals m) -> main_loop_body fuel hw m = Some m' ->
  exists read,
    uint16_pair read = true /\
    m_globals m'
    = fst (main_loop_after_conversion (set_adcRawData read (m_globals m))) /\
    m_uart m'
    = m_uart m
        ++ snd (main_loop_after_conversion (set_adcRawData read (m_globals m))).
Proof.
  intros Hwf. unfold main_loop_body.
  destruct (AdcConversion fuel hw (m_hw m) (adcRawData (m_globals m)))
    as [[read |] h] eqn:Hconv; [| discriminate].
  apply AdcConversion_returns_pair in Hconv; [| apply Hwf].
  destruct (main_loop_after_conversion (set_adcRawData read (m_globals m)))
    as [g out] eqn:Hturn.
  intros [= <-]. exists read. cbn [m_globals m_uart]. rewrite ?Hturn. auto.
Qed.

Lemma main_loop_run (n : nat) (fuel : nat) (hw : adc_hw) :
  forall m m' : machine,
  wf_globals (m_globals m) -> main_loop n fuel hw m = Some m' ->
  exists reads,
    length reads = n /\
    Forall (fun r => uint16_pair r = true) reads /\
    m_globals m' = fst (run_rounds (m_globals m) reads) /\
    m_uart m' = m_uart m ++ snd (run_rounds (m_globals m) reads).
Proof.
  induction n as [|n IH]; intros m m' Hwf Hrun.
  - injection Hrun as <-. exists []. cbn. now rewrite app_nil_r.
  - cbn [main_loop] in Hrun.
    destruct (main_loop_body fuel hw m) as [m1 |] eqn:Hbody; [| discriminate].
    destruct (main_loop_body_run fuel hw m m1 Hwf Hbody)
      as (r & Hr & Hg1 & Hu1).
    assert (Hwf1 : wf_globals (m_globals m1)).
    { rewrite Hg1. apply main_loop_after_conversion_wf;
        auto using uint16_pair_length. }
    destruct (IH m1 m' Hwf1 Hrun) as (reads & Hlen & Hall & Hg & Hu).
    exists (r :: reads). split; [cbn; lia |]. split; [now constructor |].
    cbn [run_rounds].
    destruct (main_loop_after_conversion (set_adcRawData r (m_globals m)))
      as [g1 out1]; cbn [fst snd] in *. subst g1.
    destruct (run_rounds (m_globals m1) reads) as [g2 out2]; cbn [fst snd] in *.
    split; [assumption |]. rewrite Hu, Hu1. now rewrite app_assoc.
Qed.

Lemma main_loop_last (n : nat) (fuel : nat) (hw : adc_hw) :
  forall m : machine,
  main_loop (S n) fuel hw m
  = match main_loop n fuel hw m with
    | Some m' => main_loop_body fuel hw m'
    | None => None
    end.
Proof.
  induction n as [|n IH]; intros m.
  - cbn. now destruct (main_loop_body fuel hw m).
  - cbn [main_loop] in *. destruct (main_loop_body fuel hw m) as [m1 |];
      [apply IH | reflexivity].
Qed.

(** Where the loop starts: the windows reset, the counter at 0, and one line
    about the initial test on the serial link. *)
Lemma main_init_run (fuel : nat) (hw : adc_hw) (m : machine) :
  main_init fuel hw = Some m ->
  exists g,
    wf_globals g /\ testIteration g = 0 /\ m_globals m = InitStatistics g /\
    (m_uart m = [InitializationPassed] \/ m_uart m = [InitializationWarning]).
Proof.
  unfold main_init.
  destruct (AdcConversion fuel hw [] (adcRawData globals_at_reset))
    as [[read |] h] eqn:Hconv; [| discriminate].
  apply AdcConversion_returns_pair in Hconv; [| reflexivity].
  intros [= <-]. eexists. split; [| split; [| split; [reflexivity |]]].
  - apply set_adcVoltages_wf.
    + apply set_adcRawData_wf; [repeat split | now apply uint16_pair_length].
    + now rewrite AdcResult_length.
  - reflexivity.
  - cbn [m_uart]. destruct (VerifyADCReadings _); auto.
Qed.

Lemma statistics_due_first_batch (k : Z) :
  0 <= k < 10 -> statistics_due (0 + k) = false.
Proof.
  intros Hk. unfold statistics_due, TEST_ITERATIONS.
  destruct (Z.eq_dec k 0) as [-> | Hne]; [reflexivity |].
  rewrite Z.add_0_l, Z.mod_small by lia.
  destruct (Z.eqb_spec k 0); [lia |]. apply andb_false_r.
Qed.

Lemma readings_of_app (out1 out2 : list uart_item) :
  readings_of (out1 ++ out2) = readings_of out1 ++ readings_of out2.
Proof. apply omap_app. Qed.

Lemma statistics_of_app (out1 out2 : list uart_item) :
  statistics_of (out1 ++ out2) = statistics_of out1 ++ statistics_of out2.
Proof. apply omap_app. Qed.

Lemma InitStatistics_sum (g : globals) (i : nat) :
  wf_globals g -> (i < NUM_ADC_CHANNELS)%nat ->
  sumVoltages (InitStatistics g) !!! i = F32.zero.
Proof.
  intros Hwf Hi. rewrite (InitStatistics_eq g Hwf). unfold NUM_ADC_CHANNELS in Hi.
  destruct i as [|[|i]]; [reflexivity | reflexivity | lia].
Qed.

(** The averages of a table printed over windows filled from a reset: the
    binary32 sum of every voltage fed since the reset, divided by the sample
    count of the header. *)
Lemma batch_report_average (g : globals) (reads : list (list Z)) (x : Z)
    (i : nat) :
  wf_globals g -> Forall (fun r => length r = NUM_ADC_CHANNELS) reads ->
  (i < NUM_ADC_CHANNELS)%nat ->
  exists row,
    rep_rows
      (snd (DisplayStatistics
              (set_testIteration x
                 (foldl sample_round (InitStatistics g) reads)))) !! i
    = Some row /\
    row_avg row
    = F32.div (foldl F32.add F32.zero (voltages_of i reads))
        (F32.of_Z
           (rep_sampleCount
              (snd (DisplayStatistics
                      (set_testIteration x
                         (foldl sample_round (InitStatistics g) reads)))))).
Proof.
  intros Hwf Hall Hi.
  assert (Hwff : wf_globals
            (set_testIteration x
               (foldl sample_round (InitStatistics g) reads)))
    by auto using set_testIteration_wf, foldl_sample_round_wf,
         InitStatistics_wf.
  rewrite (DisplayStatistics_eq _ Hwff). cbn [snd rep_rows rep_sampleCount].
  pose proof (sample_rounds_sum reads i (InitStatistics g)
                (InitStatistics_wf g Hwf) Hall Hi) as Hsum.
  rewrite (InitStatistics_sum g i Hwf Hi) in Hsum.
  unfold NUM_ADC_CHANNELS in Hi.
  destruct i as [|[|i]]; [| | lia]; eexists; (split; [reflexivity |]);
    cbn [row_of row_avg sumVoltages set_testIteration]; now rewrite Hsum.
Qed.

(** C4, what the program does. On any converter, the first ten turns of the
    loop print no statistics. The first table comes in the eleventh turn,
    after eleven tables of readings; it is headed by 10 readings, and each of
    its averages is the sum of the eleven voltages of its channel divided by
    10. *)
Theorem first_statistics_cover_eleven_rounds (fuel : nat) (hw : adc_hw)
    (m : machine) :
  main 11 fuel hw = Some m ->
  exists m10 init reads rep,
    main 10 fuel hw = Some m10 /\
    statistics_of (m_uart m10) = [] /\
    length (readings_of (m_uart m10)) = 10%nat /\
    length reads = 11%nat /\
    m_uart m = init :: readings_from 0 reads ++ [Statistics rep] /\
    rep_sampleCount rep = 10 /\
    forall i, (i < NUM_ADC_CHANNELS)%nat ->
      length (voltages_of i reads) = 11%nat /\
      exists row,
        rep_rows rep !! i = Some row /\
        row_avg row
        = F32.div (foldl F32.add F32.zero (voltages_of i reads))
            (F32.of_Z 10).
Proof.
  unfold main. destruct (main_init fuel hw) as [m0 |] eqn:Hinit;
    [| discriminate].
  destruct (main_init_run fuel hw m0 Hinit) as (g0 & Hwf0 & Ht0 & Hg0 & Hu0).
  intros Hrun.
  assert (HwfG : wf_globals (InitStatistics g0)) by now apply InitStatistics_wf.
  assert (Hquiet : forall k, 0 <= k < 10 ->
            statistics_due (testIteration (InitStatistics g0) + k) = false).
  { intros k Hk. rewrite InitStatistics_testIteration, Ht0.
    now apply statistics_due_first_batch. }
  assert (Hinit1 : exists init,
            m_uart m0 = [init] /\ statistics_of [init] = [] /\
            readings_of [init] = []).
  { destruct Hu0 as [-> | ->]; eexists; repeat split. }
  destruct Hinit1 as (init & Hinit1 & Hinit2 & Hinit3).
  (* the first ten turns *)
  pose proof Hrun as Hten. rewrite main_loop_last in Hten.
  destruct (main_loop 10 fuel hw m0) as [m10 |] eqn:Hten'; [| discriminate].
  clear Hten.
  destruct (main_loop_run 10 fuel hw m0 m10) as (reads & Hlen & Hall & _ & Hu);
    [now rewrite Hg0 | assumption |].
  rewrite Hg0 in Hu.
  rewrite (run_rounds_quiet reads (InitStatistics g0) HwfG)
    in Hu;
    [ | rewrite InitStatistics_testIteration; lia
      | rewrite InitStatistics_testIteration, Ht0, Hlen; cbn; lia
      | now apply uint16_pairs_length
      | rewrite Hlen; exact Hquiet ].
  cbn [snd] in Hu.
  (* the eleven turns *)
  destruct (main_loop_run 11 fuel hw m0 m) as (reads' & Hlen' & Hall' & _ & Hu');
    [now rewrite Hg0 | assumption |].
  rewrite Hg0 in Hu'.
  destruct (exists_last (l := reads')) as (front & last & ->);
    [intros ->; discriminate Hlen' |].
  rewrite length_app in Hlen'. cbn in Hlen'.
  assert (Hfront : length front = 10%nat) by lia.
  pose proof (uint16_pairs_length _ Hall') as Hall2.
  destruct (run_rounds_batch front last (InitStatistics g0) HwfG)
    as (Hbatch & _ & Hcount);
    [ rewrite InitStatistics_testIteration; lia
    | rewrite InitStatistics_testIteration, Ht0, Hfront; cbn; lia
    | exact Hall2
    | rewrite Hfront; exact Hquiet
    | rewrite InitStatistics_testIteration, Ht0, Hfront; reflexivity | ].
  rewrite Hbatch in Hu'. cbn [snd] in Hu'.
  rewrite InitStatistics_testIteration, Ht0 in Hu, Hu', Hcount.
  exists m10, init, (front ++ [last]). eexists.
  split; [reflexivity |].
  split; [rewrite Hu, statistics_of_app, statistics_of_readings_from, Hinit1,
            Hinit2; reflexivity |].
  split; [rewrite Hu, readings_of_app, readings_of_readings_from, length_app,
            length_fmap, Hlen, Hinit1, Hinit3; reflexivity |].
  split; [rewrite length_app, Hfront; reflexivity |].
  split; [rewrite Hu', Hinit1; reflexivity |].
  split; [exact Hcount |].
  intros i Hi. split.
  { unfold voltages_of, column.
    rewrite length_fmap, length_map, length_app, Hfront. reflexivity. }
  destruct (batch_report_average g0 (front ++ [last])
              (0 + Z.of_nat (length front)) i Hwf0 Hall2 Hi)
    as (row & Hrow & Havg).
  exists row. split; [exact Hrow |]. now rewrite Havg, Hcount.
Qed.

Lemma first_statistics_cover_eleven_rounds_witness :
  exists m init reads rep,
    main 11 4 (bench_hw 2 steady_signal) = Some m /\
    length reads = 11%nat /\
    m_uart m = init :: readings_from 0 reads ++ [Statistics rep] /\
    rep_sampleCount rep = 10.
Proof.
  assert (Hrun : {m | main 11 4 (bench_hw 2 steady_signal) = Some m}).
  { eexists. vm_compute. reflexivity. }
  destruct Hrun as [m Hrun].
  destruct (first_statistics_cover_eleven_rounds 4 _ m Hrun)
    as (m10 & init & reads & rep & _ & _ & _ & Hlen & Hout & Hcount & _).
  exists m, init, reads, rep. auto.
Defined.

(** C1, what the program does. On a converter that returns the same two
    samples at every conversion, the first table has the voltage itself as
    minimum and as maximum of each channel, as it should; its average is the
    sum of eleven voltages divided by 10, which is further than 1e-4 from
    their mean, the voltage itself. *)
Theorem first_batch_average_is_not_the_mean :
  exists m rep row0 row1,
    main 11 4 (bench_hw 2 steady_signal) = Some m /\
    readings_of (m_uart m)
    = replicate 11 [calibrate 0 52627; calibrate 1 2000] /\
    statistics_of (m_uart m) = [rep] /\
    rep_sampleCount rep = 10 /\
    rep_rows rep = [row0; row1] /\
    row_min row0 = calibrate 0 52627 /\ row_max row0 = calibrate 0 52627 /\
    row_min row1 = calibrate 1 2000 /\ row_max row1 = calibrate 1 2000 /\
    row_avg row0
    = F32.div (foldl F32.add F32.zero (replicate 11 (calibrate 0 52627)))
        (F32.of_Z 10) /\
    row_avg row1
    = F32.div (foldl F32.add F32.zero (replicate 11 (calibrate 1 2000)))
        (F32.of_Z 10) /\
    F32.within (1 # 10000) (row_avg row0) (F32.to_Q (calibrate 0 52627))
    = false /\
    F32.within (1 # 10000) (row_avg row1) (F32.to_Q (calibrate 1 2000))
    = false /\
    F32.within (1 # 10000) (row_avg row0)
      ((11 # 10) * F32.to_Q (calibrate 0 52627)) = true /\
    F32.within (1 # 10000) (row_avg row1)
      ((11 # 10) * F32.to_Q (calibrate 1 2000)) = true.
Proof.
  do 4 eexists. split; [vm_compute; reflexivity |].
  cbn [m_uart]. split; [vm_compute; reflexivity |].
  split; [vm_compute; reflexivity |]. cbn [rep_sampleCount rep_rows].
  split; [reflexivity |]. split; [reflexivity |].
  cbn [row_min row_max row_avg].
  repeat split; vm_compute; reflexivity.
Qed.

(** ** AdcConversion on a converter that answers, and on one that does not *)

Lemma wait_ADCINT1_more_fuel (fuel : nat) (hw : adc_hw) (a : adc_instance) :
  forall (hist h : list hw_event),
  wait_ADCINT1 fuel hw a hist = (true, h) ->
  wait_ADCINT1 (S fuel) hw a hist = (true, h).
Proof.
  induction fuel as [|fuel IH]; intros hist h H; [discriminate H |].
  cbn [wait_ADCINT1] in *. destruct (hw_status hw hist a); [exact H |].
  now apply IH.
Qed.

Lemma wait_ADCINT1_fuel_le (fuel fuel' : nat) (hw : adc_hw)
    (a : adc_instance) (hist h : list hw_event) :
  (fuel <= fuel')%nat ->
  wait_ADCINT1 fuel hw a hist = (true, h) ->
  wait_ADCINT1 fuel' hw a hist = (true, h).
Proof.
  induction 1 as [|fuel' Hle IH]; intros H; [exact H |].
  apply wait_ADCINT1_more_fuel. now apply IH.
Qed.

Lemma wait_ADCINT1_returns (k : nat) (hw : adc_hw) (a : adc_instance) :
  forall (fuel : nat) (hist : list hw_event),
  (k < fuel)%nat ->
  hw_status hw (hist ++ replicate k (GetInterruptStatus a false)) a = true ->
  exists j, (j <= k)%nat /\
    wait_ADCINT1 fuel hw a hist
    = (true, hist ++ replicate j (GetInterruptStatus a false)
               ++ [GetInterruptStatus a true]).
Proof.
  induction k as [|k IH]; intros fuel hist Hk Hst;
    (destruct fuel as [|fuel]; [lia |]); cbn [wait_ADCINT1].
  - cbn in Hst. rewrite app_nil_r in Hst. rewrite Hst.
    exists 0%nat. split; [lia | reflexivity].
  - destruct (hw_status hw hist a) eqn:E.
    + exists 0%nat. split; [lia | reflexivity].
    + destruct (IH fuel (hist ++ [GetInterruptStatus a false]))
        as (j & Hj & ->); [lia | |].
      * rewrite <- app_assoc. exact Hst.
      * exists (S j). split; [lia |]. now rewrite <- app_assoc.
Qed.

Lemma acquire_returns (n fuel : nat) (hw : adc_hw) (a : adc_instance)
    (hist : list hw_event) :
  raises_within n hw -> (n <= fuel)%nat ->
  exists k raw,
    (k < n)%nat /\ 0 <= raw < 65536 /\
    acquire fuel hw a hist = (Some raw, hist ++ acquisition a k raw) /\
    acquire n hw a hist = (Some raw, hist ++ acquisition a k raw).
Proof.
  intros Hhw Hfuel.
  destruct (Hhw (hist ++ [ForceSOC a]) a) as (k & Hk & Hst).
  destruct (wait_ADCINT1_returns k hw a n _ Hk Hst) as (j & Hj & Hw).
  pose proof (wait_ADCINT1_fuel_le n fuel hw a _ _ Hfuel Hw) as Hw'.
  exists j,
    (uint16
       (hw_result hw
          (((hist ++ [ForceSOC a])
              ++ replicate j (GetInterruptStatus a false)
              ++ [GetInterruptStatus a true])
             ++ [ClearInterruptStatus a]) a)).
  split; [lia |]. split; [| split].
  - apply (Z.mod_pos_bound _ (2 ^ 16)). lia.
  - unfold acquire. rewrite Hw'. unfold acquisition.
    f_equal. rewrite <- !app_assoc. reflexivity.
  - unfold acquire. rewrite Hw. unfold acquisition.
    f_equal. rewrite <- !app_assoc. reflexivity.
Qed.

(** X1. On a converter whose flags rise within [n] polls, [AdcConversion] returns
    once it may poll [n] times: it stores the two results read, at most [n]
    polls were needed on each converter, and polling longer changes neither
    the samples nor the driver calls. *)
Theorem AdcConversion_returns (n fuel : nat) (hw : adc_hw)
    (hist : list hw_event) (read : list Z) :
  raises_within n hw -> (n <= fuel)%nat ->
  exists kA kB r0 r1,
    (kA < n)%nat /\ (kB < n)%nat /\
    0 <= r0 < 65536 /\ 0 <= r1 < 65536 /\
    AdcConversion fuel hw hist read
    = (Some (<[1%nat := r1]> (<[0%nat := r0]> read)),
       hist ++ acquisition myADCA kA r0 ++ acquisition myADCB kB r1) /\
    AdcConversion fuel hw hist read = AdcConversion n hw hist read.
Proof.
  intros Hhw Hfuel. unfold AdcConversion.
  destruct (acquire_returns n fuel hw myADCA hist Hhw Hfuel)
    as (kA & r0 & HkA & Hr0 & -> & ->).
  destruct (acquire_returns n fuel hw myADCB
              (hist ++ acquisition myADCA kA r0) Hhw Hfuel)
    as (kB & r1 & HkB & Hr1 & -> & ->).
  exists kA, kB, r0, r1. rewrite <- app_assoc. auto 10.
Qed.

Lemma bench_hw_raises (latency : nat) (signal : adc_instance -> nat -> Z) :
  raises_within (S latency) (bench_hw latency signal).
Proof.
  intros hist a. exists latency. split; [lia |]. cbn.
  rewrite rev_app_distr.
  assert (H : forall k tl,
            polls_since_trigger a
              (rev (replicate k (GetInterruptStatus a false)) ++ tl)
            = (k + polls_since_trigger a tl)%nat).
  { induction k as [|k IH]; intros tl; [reflexivity |].
    cbn [replicate rev]. rewrite <- app_assoc. rewrite IH. cbn.
    destruct a; cbn; lia. }
  rewrite H. apply Nat.leb_le. lia.
Qed.

Lemma AdcConversion_returns_witness :
  raises_within 3 (bench_hw 2 steady_signal) /\ (3 <= 5)%nat /\
  exists kA kB,
    AdcConversion 5 (bench_hw 2 steady_signal) [] [7; 7]
    = (Some [52627; 2000],
       acquisition myADCA kA 52627 ++ acquisition myADCB kB 2000).
Proof.
  split; [apply bench_hw_raises |]. split; [lia |].
  destruct (AdcConversion_returns 3 5 (bench_hw 2 steady_signal) [] [7; 7]
              (bench_hw_raises 2 steady_signal) ltac:(lia))
    as (kA & kB & r0 & r1 & _ & _ & _ & _ & H & _).
  exists 2%nat, 2%nat. reflexivity.
Defined.

(** X2. On a converter whose ADCA flag never rises, [AdcConversion] never
    returns: however long it is observed, it has triggered ADCA and polled;
    it has cleared no flag, read no result and not touched ADCB. *)
Theorem AdcConversion_blocks (fuel : nat) (hw : adc_hw)
    (hist : list hw_event) (read : list Z) :
  (forall h, hw_status hw h myADCA = false) ->
  AdcConversion fuel hw hist read
  = (None, hist ++ blocked_acquisition myADCA fuel).
Proof.
  intros Hstuck. unfold AdcConversion.
  destruct (acquire_shape fuel hw myADCA hist)
    as [(k & raw & Hk & _ & Hacq) | ->]; [| reflexivity].
  exfalso. unfold acquire in Hacq.
  destruct (wait_ADCINT1_shape fuel hw myADCA (hist ++ [ForceSOC myADCA]))
    as [(j & Hj & Hw) | Hw]; rewrite Hw in Hacq; [| discriminate].
  clear Hacq. revert Hw. generalize (hist ++ [ForceSOC myADCA]).
  clear Hk. revert j Hj.
  induction fuel as [|fuel IH]; intros j Hj h Hw; [lia |].
  cbn [wait_ADCINT1] in Hw. rewrite Hstuck in Hw.
  destruct j as [|j].
  - destruct (wait_ADCINT1_shape fuel hw myADCA
                (h ++ [GetInterruptStatus myADCA false]))
      as [(j' & _ & Hw') | Hw']; rewrite Hw' in Hw.
    + injection Hw as Hw. rewrite <- app_assoc in Hw.
      apply app_inv_head in Hw. discriminate Hw.
    + discriminate Hw.
  - apply (IH j ltac:(lia) (h ++ [GetInterruptStatus myADCA false])).
    rewrite Hw. now rewrite <- app_assoc.
Qed.

Lemma AdcConversion_blocks_witness :
  (forall h, hw_status stuck_hw h myADCA = false) /\
  AdcConversion 3 stuck_hw [] [0; 0]
  = (None, [ForceSOC myADCA; GetInterruptStatus myADCA false;
            GetInterruptStatus myADCA false;
            GetInterruptStatus myADCA false]).
Proof.
  split; [reflexivity |].
  exact (AdcConversion_blocks 3 stuck_hw [] [0; 0] (fun _ => eq_refl)).
Defined.

(** ** AdcResult on the whole range of its argument type *)

Lemma ltb_trans (x y z : spec_float) :
  F32.ltb x y = true -> F32.ltb y z = true -> F32.ltb x z = true.
Proof. intros H1 H2. float_order. Qed.

(** What a successful scan has checked. *)
Lemma increasing_scan_spec (f : Z -> spec_float)
    (P : Z -> spec_float -> bool) (k : nat) :
  forall (lo : Z) (a b : spec_float),
  increasing_scan k f P lo = Some (a, b) ->
  a = f lo /\ b = f (lo + 2 ^ Z.of_nat k - 1) /\
  (forall z, lo <= z < lo + 2 ^ Z.of_nat k -> P z (f z) = true) /\
  (forall x y, lo <= x -> x < y -> y < lo + 2 ^ Z.of_nat k ->
   F32.ltb (f x) (f y) = true).
Proof.
  induction k as [|k IH]; intros lo a b H.
  - cbn [increasing_scan] in H. cbv zeta in H.
    destruct (P lo (f lo)) eqn:HP; [| discriminate H].
    injection H as <- <-. change (2 ^ Z.of_nat 0) with 1.
    split; [reflexivity |]. split; [f_equal; lia |]. split.
    + intros z Hz. assert (z = lo) by lia. subst z. exact HP.
    + intros x y Hx Hxy Hy. lia.
  - cbn [increasing_scan] in H.
    destruct (increasing_scan k f P lo) as [[a1 b1] |] eqn:H1;
      [| discriminate H].
    destruct (increasing_scan k f P (lo + 2 ^ Z.of_nat k)) as [[c d] |] eqn:H2;
      [| discriminate H].
    destruct (F32.ltb b1 c) eqn:Hbc; [| discriminate H].
    injection H as <- <-.
    destruct (IH _ _ _ H1) as (Ha & Hb & HP1 & HM1).
    destruct (IH _ _ _ H2) as (Hc & Hd & HP2 & HM2).
    rewrite Nat2Z.inj_succ, Z.pow_succ_r by lia.
    assert (Hh : 0 < 2 ^ Z.of_nat k) by (apply Z.pow_pos_nonneg; lia).
    split; [exact Ha |]. split; [rewrite Hd; f_equal; lia |]. split.
    + intros z Hz.
      destruct (Z_lt_ge_dec z (lo + 2 ^ Z.of_nat k));
        [apply HP1 | apply HP2]; lia.
    + intros x y Hx Hxy Hy.
      destruct (Z_lt_ge_dec y (lo + 2 ^ Z.of_nat k)) as [Hyl | Hyr];
        [apply HM1; lia |].
      destruct (Z_lt_ge_dec x (lo + 2 ^ Z.of_nat k)) as [Hxl | Hxr];
        [| apply HM2; lia].
      assert (Hxb : f x = b1 \/ F32.ltb (f x) b1 = true).
      { destruct (Z.eq_dec x (lo + 2 ^ Z.of_nat k - 1)) as [-> | Hne];
          [left; now rewrite Hb | right; rewrite Hb; apply HM1; lia]. }
      assert (Hcy : c = f y \/ F32.ltb c (f y) = true).
      { destruct (Z.eq_dec y (lo + 2 ^ Z.of_nat k)) as [-> | Hne];
          [left; exact Hc | right; rewrite Hc; apply HM2; lia]. }
      destruct Hxb as [-> | Hxb], Hcy as [<- | Hcy]; eauto using ltb_trans.
Qed.

Lemma scanned_spec (f : Z -> spec_float) (P : Z -> spec_float -> bool)
    (k : nat) (lo : Z) :
  scanned k f P lo = true ->
  (forall z, lo <= z < lo + 2 ^ Z.of_nat k -> P z (f z) = true) /\
  (forall x y, lo <= x -> x < y -> y < lo + 2 ^ Z.of_nat k ->
   F32.ltb (f x) (f y) = true).
Proof.
  unfold scanned. intros H.
  destruct (increasing_scan k f P lo) as [[a b] |] eqn:Hscan;
    [| discriminate H].
  destruct (increasing_scan_spec f P k lo a b Hscan) as (_ & _ & HP & HM).
  split; assumption.
Qed.

(** The float constants of the passes below. *)
Lemma thousand_value : F32.of_Z 1000 = S754_finite false 16384000 (-14).
Proof. reflexivity. Qed.

Lemma half_value : F32.of_ratio 1 2 = S754_finite false 8388608 (-24).
Proof. reflexivity. Qed.

Lemma ten_value : F32.of_Z 10 = S754_finite false 10485760 (-20).
Proof. reflexivity. Qed.

(** The differential channel from raw 0 to 65535: the voltages increase, and
    the text of each is as [voltage_text_ok] says. *)
Lemma differential_scan :
  scanned 16 calibrate_differential (voltage_text_ok 0) 0 = true.
Proof.
  unfold calibrate_differential, voltage_text_ok, UARTSendFloat.
  rewrite DIFFERENTIAL_value, thousand_value, half_value.
  vm_cast_no_check (eq_refl true).
Qed.

(** The single-ended line of [AdcResult] on all 16-bit values. *)
Lemma single_ended_scan :
  scanned 16 calibrate_single_ended single_ended_uint16_ok 0 = true.
Proof.
  unfold calibrate_single_ended, single_ended_uint16_ok.
  rewrite SINGLE_ENDED_value, ten_value.
  vm_cast_no_check (eq_refl true).
Qed.

(** X3. Calibration preserves the order of raw samples: on either channel, over
    all 16-bit values, a larger raw sample gives a strictly larger binary32
    voltage. *)
Theorem calibrate_strictly_increasing (i : nat) (a b : Z) :
  (i < NUM_ADC_CHANNELS)%nat -> 0 <= a -> a < b -> b <= 65535 ->
  F32.ltb (calibrate i a) (calibrate i b) = true.
Proof.
  intros Hi Ha Hab Hb. unfold NUM_ADC_CHANNELS in Hi.
  destruct i as [|[|i]]; [| | lia].
  - rewrite !calibrate_0_eq by lia.
    apply (proj2 (scanned_spec _ _ 16 0 differential_scan) a b); simpl; lia.
  - rewrite !calibrate_1_eq.
    apply (proj2 (scanned_spec _ _ 16 0 single_ended_scan) a b); simpl; lia.
Qed.

Lemma calibrate_strictly_increasing_witness :
  (0 < NUM_ADC_CHANNELS)%nat /\ 0 <= 100 /\ 100 < 40000 /\ 40000 <= 65535 /\
  F32.ltb (calibrate 0 100) (calibrate 0 40000) = true.
Proof.
  assert (Hi : (0 < NUM_ADC_CHANNELS)%nat) by (unfold NUM_ADC_CHANNELS; lia).
  split; [exact Hi |]. split; [lia |]. split; [lia |]. split; [lia |].
  apply (calibrate_strictly_increasing 0 100 40000 Hi); lia.
Defined.

(** X4. [AdcResult] takes any 16-bit value on the single-ended channel too. The
    voltage is then still a finite non-negative number, but it is below the
    +10 sentinel of [InitStatistics] only up to raw 12412: from 12413 on, a
    first update would leave the sentinel as minimum. *)
Theorem single_ended_beyond_resolution (raw : Z) :
  0 <= raw <= 65535 ->
  F32.is_finite (calibrate 1 raw) = true /\
  F32.leb F32.zero (calibrate 1 raw) = true /\
  (F32.ltb (calibrate 1 raw) (F32.of_Z 10) = true <-> raw <= 12412).
Proof.
  intros Hraw. rewrite calibrate_1_eq.
  pose proof (proj1 (scanned_spec _ _ 16 0 single_ended_scan) raw
                ltac:(simpl; lia)) as H.
  unfold single_ended_uint16_ok, calibrate_single_ended in H.
  apply andb_true_iff in H as [H H3]. apply andb_true_iff in H as [H1 H2].
  split; [exact H1 |]. split; [exact H2 |].
  apply Bool.eqb_prop in H3. rewrite H3. apply Z.leb_le.
Qed.

Lemma single_ended_beyond_resolution_witness :
  0 <= 12413 <= 65535 /\
  F32.ltb (calibrate 1 12413) (F32.of_Z 10) = false.
Proof.
  split; [lia |].
  destruct (single_ended_beyond_resolution 12413 ltac:(lia)) as (_ & _ & H).
  destruct (F32.ltb (calibrate 1 12413) (F32.of_Z 10)); [| reflexivity].
  exfalso. assert (12413 <= 12412) by (apply H; reflexivity). lia.
Defined.

(** ** The statistics functions on any voltages *)

(** X5. Whatever voltages are fed to [UpdateStatistics] after [InitStatistics],
    as long as those of a channel lie strictly between the sentinels (no NaN
    among them), the window of the channel holds their minimum, their maximum
    and their binary32 sum in feeding order. *)
Theorem window_holds_min_max_sum (g : globals)
    (rounds : list (list spec_float)) (i : nat) :
  wf_globals g -> rounds <> [] ->
  Forall (fun vs => length vs = NUM_ADC_CHANNELS) rounds ->
  Forall (fun v => inside_sentinels v = true) (column i rounds) ->
  (i < NUM_ADC_CHANNELS)%nat ->
  is_minimum (minVoltages (foldl feed (InitStatistics g) rounds) !!! i)
    (column i rounds) /\
  is_maximum (maxVoltages (foldl feed (InitStatistics g) rounds) !!! i)
    (column i rounds) /\
  sumVoltages (foldl feed (InitStatistics g) rounds) !!! i
  = foldl F32.add F32.zero (column i rounds).
Proof.
  intros Hwf Hne Hlen Hin Hi.
  destruct (feed_all_window rounds i (InitStatistics g)
              (InitStatistics_wf g Hwf) Hlen Hi) as [_ Hw].
  rewrite InitStatistics_window in Hw by assumption.
  pose proof (window_fold (column i rounds) Hin) as Hf.
  rewrite <- Hw in Hf. unfold window_of in Hf.
  destruct Hf as [Hsum [(Hnil & _) | [Hmin Hmax]]]; [| auto].
  destruct rounds; [congruence | discriminate Hnil].
Qed.

Lemma window_holds_min_max_sum_witness :
  wf_globals globals_at_reset /\
  is_minimum
    (minVoltages
       (foldl feed (InitStatistics globals_at_reset)
          [[F32.of_Z 2; F32.zero]; [F32.of_Z (-3); F32.of_Z 1]]) !!! 0%nat)
    [F32.of_Z 2; F32.of_Z (-3)].
Proof.
  assert (Hwf : wf_globals globals_at_reset) by (repeat split).
  split; [exact Hwf |].
  refine (proj1 (window_holds_min_max_sum globals_at_reset
                   [[F32.of_Z 2; F32.zero]; [F32.of_Z (-3); F32.of_Z 1]]
                   0 Hwf _ _ _ _)).
  - discriminate.
  - repeat constructor.
  - repeat constructor.
  - unfold NUM_ADC_CHANNELS. lia.
Defined.

(** X6. [DisplayStatistics] writes the averages it prints into [avgVoltages] and
    changes nothing else; displaying again prints the same table and changes
    nothing. *)
Theorem DisplayStatistics_writes_averages_only (g : globals) :
  wf_globals g ->
  fst (DisplayStatistics g)
  = set_avgVoltages (row_avg <$> rep_rows (snd (DisplayStatistics g))) g /\
  DisplayStatistics (fst (DisplayStatistics g)) = DisplayStatistics g.
Proof.
  intros Hwf. pose proof (DisplayStatistics_wf g Hwf) as Hwf'.
  rewrite (DisplayStatistics_eq _ Hwf'). rewrite (DisplayStatistics_eq g Hwf).
  cbn [fst snd rep_rows]. split; [reflexivity |].
  destruct g as [raw volt ti mn mx av sm]. reflexivity.
Qed.

Lemma DisplayStatistics_writes_averages_only_witness :
  wf_globals globals_at_reset /\
  DisplayStatistics (fst (DisplayStatistics globals_at_reset))
  = DisplayStatistics globals_at_reset.
Proof.
  assert (Hwf : wf_globals globals_at_reset) by (repeat split).
  split; [exact Hwf |].
  exact (proj2 (DisplayStatistics_writes_averages_only _ Hwf)).
Defined.

(** ** The cadence of the loop *)

Lemma tables_before_step (t : Z) :
  0 <= t ->
  tables_before (t + 1)
  = tables_before t + (if statistics_due t then 1 else 0).
Proof.
  intros Ht. unfold tables_before, statistics_due, TEST_ITERATIONS.
  destruct (Z.ltb_spec 0 t); destruct (Z.eqb_spec (t mod 10) 0); cbn [andb];
    Z.div_mod_to_equations; lia.
Qed.

Lemma turn_facts (g : globals) (read : list Z) :
  wf_globals g -> length read = NUM_ADC_CHANNELS ->
  0 <= testIteration g -> testIteration g + 1 < 2 ^ 32 ->
  wf_globals (fst (main_loop_after_conversion (set_adcRawData read g))) /\
  testIteration (fst (main_loop_after_conversion (set_adcRawData read g)))
  = testIteration g + 1 /\
  Z.of_nat
    (length
       (statistics_of
          (snd (main_loop_after_conversion (set_adcRawData read g)))))
  = (if statistics_due (testIteration g) then 1 else 0) /\
  length
    (readings_of (snd (main_loop_after_conversion (set_adcRawData read g))))
  = 1%nat.
Proof.
  intros Hwf Hlen Ht Hmax.
  split; [now apply main_loop_after_conversion_wf |].
  destruct (statistics_due (testIteration g)) eqn:Hdue.
  - rewrite main_loop_after_conversion_due by assumption.
    cbn [fst snd]. rewrite testIteration_set_testIteration, uint32_small by lia.
    repeat split.
  - rewrite main_loop_after_conversion_quiet by assumption.
    cbn [fst snd]. rewrite testIteration_set_testIteration, uint32_small by lia.
    repeat split.
Qed.

Lemma run_rounds_cadence (reads : list (list Z)) :
  forall g : globals,
  wf_globals g -> 0 <= testIteration g ->
  testIteration g + Z.of_nat (length reads) < 2 ^ 32 ->
  Forall (fun r => length r = NUM_ADC_CHANNELS) reads ->
  wf_globals (fst (run_rounds g reads)) /\
  testIteration (fst (run_rounds g reads))
  = testIteration g + Z.of_nat (length reads) /\
  Z.of_nat (length (statistics_of (snd (run_rounds g reads))))
  = tables_before (testIteration g + Z.of_nat (length reads))
    - tables_before (testIteration g) /\
  length (readings_of (snd (run_rounds g reads))) = length reads.
Proof.
  induction reads as [|r reads IH]; intros g Hwf Ht Hmax Hall.
  - cbn [run_rounds fst snd length]. change (Z.of_nat 0) with 0.
    rewrite !Z.add_0_r, Z.sub_diag.
    split; [exact Hwf |]. repeat split.
  - inversion Hall as [|? ? Hr Hrest]; subst. cbn [length] in Hmax.
    destruct (turn_facts g r Hwf Hr Ht ltac:(lia)) as (W1 & T1 & S1 & R1).
    cbn [run_rounds].
    destruct (main_loop_after_conversion (set_adcRawData r g)) as [g1 out1].
    cbn [fst snd] in *.
    assert (Ht1 : 0 <= testIteration g1) by lia.
    assert (Hmax1 : testIteration g1 + Z.of_nat (length reads) < 2 ^ 32)
      by lia.
    destruct (IH g1 W1 Ht1 Hmax1 Hrest) as (W2 & T2 & S2 & R2).
    destruct (run_rounds g1 reads) as [g2 out2]. cbn [fst snd length] in *.
    rewrite statistics_of_app, readings_of_app, !length_app.
    rewrite T1 in T2, S2. rewrite tables_before_step in S2 by assumption.
    replace (testIteration g + Z.of_nat (S (length reads)))
      with (testIteration g + 1 + Z.of_nat (length reads)) by lia.
    split; [exact W2 |]. split; [exact T2 |]. split; [| lia].
    rewrite Nat2Z.inj_add, S1, S2.
    destruct (statistics_due (testIteration g)); lia.
Qed.

(** X7. The counter and the tables of [main]. After [n] turns of the loop (fewer
    than 2^32), [testIteration] is [n], one table of readings was printed
    per turn, and the statistics were printed once for every positive
    multiple of 10 below [n]: in the turns 11, 21, 31, ... *)
Theorem main_cadence (n fuel : nat) (hw : adc_hw) (m : machine) :
  main n fuel hw = Some m -> Z.of_nat n < 2 ^ 32 ->
  testIteration (m_globals m) = Z.of_nat n /\
  length (readings_of (m_uart m)) = n /\
  Z.of_nat (length (statistics_of (m_uart m))) = tables_before (Z.of_nat n).
Proof.
  unfold main. destruct (main_init fuel hw) as [m0 |] eqn:Hinit;
    [| discriminate].
  destruct (main_init_run fuel hw m0 Hinit) as (g0 & Hwf0 & Ht0 & Hg0 & Hu0).
  intros Hrun Hn.
  assert (HwfG : wf_globals (InitStatistics g0)) by now apply InitStatistics_wf.
  destruct (main_loop_run n fuel hw m0 m) as (reads & Hlen & Hall & Hg & Hu);
    [now rewrite Hg0 | assumption |].
  rewrite Hg0 in Hg, Hu.
  destruct (run_rounds_cadence reads (InitStatistics g0))
    as (_ & T & S & R);
    [ now apply InitStatistics_wf
    | rewrite InitStatistics_testIteration; lia
    | rewrite InitStatistics_testIteration, Ht0, Hlen; lia
    | now apply uint16_pairs_length | ].
  rewrite InitStatistics_testIteration, Ht0, Hlen, Z.add_0_l in T, S.
  change (tables_before 0) with 0 in S. rewrite Z.sub_0_r in S.
  rewrite Hg, Hu, statistics_of_app, readings_of_app, !length_app, R, Hlen.
  split; [exact T |].
  destruct Hu0 as [-> | ->];
    (split; [reflexivity | rewrite <- S; reflexivity]).
Qed.

Lemma main_cadence_witness :
  exists m,
    main 25 4 (bench_hw 2 steady_signal) = Some m /\ Z.of_nat 25 < 2 ^ 32 /\
    length (statistics_of (m_uart m)) = 2%nat.
Proof.
  assert (Hrun : {m | main 25 4 (bench_hw 2 steady_signal) = Some m}).
  { eexists. vm_compute. reflexivity. }
  destruct Hrun as [m Hrun]. exists m. split; [exact Hrun |].
  split; [reflexivity |].
  destruct (main_cadence 25 4 _ m Hrun ltac:(reflexivity)) as (_ & _ & H).
  change (tables_before (Z.of_nat 25)) with (Z.of_nat 2) in H.
  now apply Nat2Z.inj in H.
Defined.

(** ** The batches after the first *)

Lemma InitStatistics_set_testIteration (x : Z) (g : globals) :
  set_testIteration x (InitStatistics g)
  = InitStatistics (set_testIteration x g).
Proof. reflexivity. Qed.

Lemma statistics_due_steady (t : Z) :
  0 < t -> t mod 10 = 1 ->
  (forall k, 0 <= k < 9 -> statistics_due (t + k) = false) /\
  statistics_due (t + 9) = true.
Proof.
  intros Ht Hmod. unfold statistics_due, TEST_ITERATIONS. split.
  - intros k Hk. apply andb_false_iff. right. apply Z.eqb_neq.
    Z.div_mod_to_equations. lia.
  - apply andb_true_iff. split; [apply Z.ltb_lt; lia |]. apply Z.eqb_eq.
    Z.div_mod_to_equations. lia.
Qed.

Lemma fst_pair {A B : Type} (a : A) (b : B) : fst (a, b) = a.
Proof. reflexivity. Qed.

Lemma snd_pair {A B : Type} (a : A) (b : B) : snd (a, b) = b.
Proof. reflexivity. Qed.

Lemma run_rounds_single (g : globals) (read : list Z) :
  run_rounds g [read]
  = (fst (main_loop_after_conversion (set_adcRawData read g)),
     snd (main_loop_after_conversion (set_adcRawData read g)) ++ []).
Proof.
  unfold run_rounds.
  now destruct (main_loop_after_conversion (set_adcRawData read g)).
Qed.

Lemma run_rounds_snoc_fst (g : globals) (front : list (list Z))
    (last : list Z) :
  fst (run_rounds g (front ++ [last]))
  = fst (main_loop_after_conversion
           (set_adcRawData last (fst (run_rounds g front)))).
Proof. now rewrite run_rounds_app, run_rounds_single, !fst_pair. Qed.

(** A batch that starts on reset windows with a counter of the form 10 k + 1:
    ten turns print ten tables of readings and then one table of statistics,
    headed by 10 readings, whose averages are the sums of exactly these ten
    voltages divided by 10; the windows are reset again and the counter is
    10 (k + 1) + 1. *)
Lemma run_rounds_steady_batch (g : globals) (reads : list (list Z)) :
  wf_globals g -> 0 < testIteration g -> testIteration g mod 10 = 1 ->
  testIteration g + 10 < 2 ^ 32 ->
  length reads = 10%nat ->
  Forall (fun r => length r = NUM_ADC_CHANNELS) reads ->
  exists rep g',
    run_rounds (InitStatistics g) reads
    = (InitStatistics g',
       readings_from (testIteration g) reads ++ [Statistics rep]) /\
    wf_globals g' /\ testIteration g' = testIteration g + 10 /\
    rep_sampleCount rep = 10 /\
    forall i, (i < NUM_ADC_CHANNELS)%nat ->
      exists row,
        rep_rows rep !! i = Some row /\
        row_avg row
        = F32.div (foldl F32.add F32.zero (voltages_of i reads))
            (F32.of_Z 10).
Proof.
  intros Hwf Ht Hmod Hmax Hlen Hall.
  destruct (exists_last (l := reads)) as (front & last & ->);
    [intros ->; discriminate Hlen |].
  rewrite length_app in Hlen. cbn in Hlen.
  assert (Hfront : length front = 9%nat) by lia.
  destruct (statistics_due_steady _ Ht Hmod) as [Hquiet Hdue].
  pose proof (InitStatistics_wf g Hwf) as HwfG.
  destruct (run_rounds_batch front last (InitStatistics g) HwfG)
    as (Hbatch & Hwff & Hcount);
    [ rewrite InitStatistics_testIteration; lia
    | rewrite InitStatistics_testIteration, Hfront; cbn; lia
    | exact Hall
    | rewrite InitStatistics_testIteration, Hfront; exact Hquiet
    | rewrite InitStatistics_testIteration, Hfront; exact Hdue | ].
  rewrite InitStatistics_testIteration, Hfront in Hbatch, Hwff, Hcount.
  rewrite InitStatistics_set_testIteration in Hbatch.
  eexists _, _. split; [exact Hbatch |].
  split; [apply set_testIteration_wf; now apply DisplayStatistics_wf |].
  split; [rewrite testIteration_set_testIteration; lia |].
  split; [exact Hcount |].
  intros i Hi.
  destruct (batch_report_average g (front ++ [last])
              (testIteration g + Z.of_nat 9) i Hwf Hall Hi)
    as (row & Hrow & Havg).
  exists row. split; [exact Hrow |]. now rewrite Havg, Hcount.
Qed.



(** ** The serial transmit functions *)

Lemma digit_value_digit_char (d : Z) :
  0 <= d <= 9 -> digit_value (digit_char d) = Some d.
Proof.
  intros Hd.
  assert (H : d = 0 \/ d = 1 \/ d = 2 \/ d = 3 \/ d = 4 \/ d = 5 \/ d = 6 \/
              d = 7 \/ d = 8 \/ d = 9) by lia.
  repeat destruct H as [-> | H]; try subst d; reflexivity.
Qed.

Lemma digit_char_zero (d : Z) :
  0 <= d <= 9 -> digit_char d = "0"%char -> d = 0.
Proof.
  intros Hd Heq. apply (f_equal digit_value) in Heq.
  rewrite digit_value_digit_char in Heq by assumption.
  now injection Heq.
Qed.

Lemma le_value_ext (k : nat) (b1 b2 : list ascii) :
  (forall j, (j < k)%nat -> b1 !!! j = b2 !!! j) ->
  le_value b1 k = le_value b2 k.
Proof.
  induction k as [|k IH]; intros H; [reflexivity |].
  cbn [le_value]. rewrite IH by (intros j Hj; apply H; lia).
  rewrite (H k) by lia. reflexivity.
Qed.

(** The loop writes the digits of [num] from index [i] upwards, least
    significant first, touches nothing below [i], and stops after the most
    significant one, which is not a zero. *)
Lemma fill_digits_spec (room : nat) :
  forall (num : Z) (buffer : list ascii) (i : nat),
  0 <= num < 10 ^ Z.of_nat room -> (i + room <= length buffer)%nat ->
  exists b i',
    fill_digits room num buffer i = Some (b, i') /\
    (i <= i' <= i + room)%nat /\ length b = length buffer /\
    (forall j, (j < i)%nat -> b !!! j = buffer !!! j) /\
    (forall j, (i <= j < i')%nat -> is_digit (b !!! j)) /\
    le_value b i' = le_value buffer i + num * 10 ^ Z.of_nat i /\
    (0 < num -> (i < i')%nat /\ b !!! (i' - 1)%nat <> "0"%char).
Proof.
  induction room as [|room IH]; intros num buffer i Hnum Hlen.
  - assert (num = 0) by (cbn in Hnum; lia). subst num.
    exists buffer, i. cbn. repeat split; auto; try lia.
  - cbn [fill_digits]. destruct (Z.ltb_spec 0 num) as [Hpos | Hzero].
    + assert (Hdigit : 0 <= num mod 10 <= 9)
        by (pose proof (Z.mod_pos_bound num 10 eq_refl); lia).
      assert (Hdiv : 0 <= num / 10 < 10 ^ Z.of_nat room).
      { rewrite Nat2Z.inj_succ, Z.pow_succ_r in Hnum by lia.
        split; [apply Z.div_pos; lia | apply Z.div_lt_upper_bound; lia]. }
      destruct (IH (num / 10) (<[i := digit_char (num mod 10)]> buffer) (S i)
                  Hdiv) as (b & i' & Hfill & Hi' & Hb & Hlow & Hdig & Hval & Htop);
        [rewrite length_insert; lia |].
      exists b, i'. rewrite length_insert in Hb.
      assert (Hbi : b !!! i = digit_char (num mod 10)).
      { rewrite Hlow by lia. apply list_lookup_total_insert_eq. lia. }
      split; [exact Hfill |]. split; [lia |]. split; [exact Hb |].
      split; [| split; [| split]].
      * intros j Hj. rewrite Hlow by lia.
        apply list_lookup_total_insert_ne. lia.
      * intros j Hj. destruct (Nat.eq_dec j i) as [-> | Hne].
        -- rewrite Hbi. unfold is_digit.
           rewrite digit_value_digit_char by assumption. eauto.
        -- apply Hdig. lia.
      * rewrite Hval. cbn [le_value].
        rewrite (list_lookup_total_insert_eq buffer i) by lia.
        rewrite digit_value_digit_char by assumption. cbn [default].
        rewrite (le_value_ext i _ buffer)
          by (intros j Hj; apply list_lookup_total_insert_ne; lia).
        rewrite Nat2Z.inj_succ, Z.pow_succ_r by lia.
        replace (num * 10 ^ Z.of_nat i)
          with ((10 * (num / 10) + num mod 10) * 10 ^ Z.of_nat i)
          by (f_equal; symmetry; apply Z.div_mod; lia).
        unfold id. ring.
      * intros _. destruct (Z.ltb_spec 0 (num / 10)) as [Hmore | Hlast].
        -- destruct (Htop Hmore) as [Hlt Hne]. split; [lia | exact Hne].
        -- assert (Hq : num / 10 = 0) by lia.
           rewrite Hq in Hfill. destruct room; cbn in Hfill;
             injection Hfill as <- <-;
             (split; [lia |]); cbn [Nat.sub]; rewrite Nat.sub_0_r;
             rewrite list_lookup_total_insert_eq by lia;
             intros Heq; apply digit_char_zero in Heq; try assumption;
             rewrite (Z.div_mod num 10) in Hpos by lia; lia.
    + assert (num = 0) by lia. subst num.
      exists buffer, i. repeat split; auto; try lia.
Qed.

Lemma fill_digits_count (room : nat) :
  forall (num : Z) (buffer b : list ascii) (i i' : nat),
  fill_digits room num buffer i = Some (b, i') -> 0 < num ->
  10 ^ (Z.of_nat i' - Z.of_nat i - 1) <= num.
Proof.
  induction room as [|room IH]; intros num buffer b i i' Hfill Hpos;
    cbn [fill_digits] in Hfill;
    destruct (Z.ltb_spec 0 num); try lia; [discriminate Hfill |].
  destruct (Z.ltb_spec 0 (num / 10)) as [Hmore | Hlast].
  - pose proof (IH _ _ _ _ _ Hfill Hmore) as Hle.
    destruct (Z.le_gt_cases (Z.of_nat i' - Z.of_nat i - 1) 0) as [Hsmall | Hbig].
    + apply Z.le_trans with 1; [| lia].
      destruct (Z.eq_dec (Z.of_nat i' - Z.of_nat i - 1) 0) as [-> | Hne];
        [reflexivity |].
      rewrite Z.pow_neg_r by lia. lia.
    + replace (Z.of_nat i' - Z.of_nat i - 1)
        with (Z.succ (Z.of_nat i' - Z.of_nat (S i) - 1)) by lia.
      rewrite Z.pow_succ_r by lia.
      pose proof (Z.mul_div_le num 10 eq_refl). lia.
  - assert (Hq : num / 10 = 0) by (pose proof (Z.div_pos num 10); lia).
    rewrite Hq in Hfill. destruct room; cbn in Hfill; injection Hfill as _ <-;
      replace (Z.of_nat (S i) - Z.of_nat i - 1) with 0 by lia; cbn; lia.
Qed.

Lemma send_down_value (b : list ascii) (k : nat) :
  forall acc : Z,
  (forall j, (j < k)%nat -> is_digit (b !!! j)) ->
  decimal_value_from acc (send_down b k)
  = Some (acc * 10 ^ Z.of_nat k + le_value b k).
Proof.
  induction k as [|k IH]; intros acc Hdig.
  - cbn. f_equal. lia.
  - cbn [send_down decimal_value_from le_value].
    destruct (Hdig k ltac:(lia)) as [d Hd]. rewrite Hd. cbn [default].
    rewrite IH by (intros j Hj; apply Hdig; lia). f_equal.
    rewrite Nat2Z.inj_succ, Z.pow_succ_r by lia. unfold id. ring.
Qed.

Lemma send_down_length (b : list ascii) (k : nat) :
  String.length (send_down b k) = k.
Proof. induction k as [|k IH]; cbn; auto. Qed.

Lemma send_down_ext (k : nat) (b1 b2 : list ascii) :
  (forall j, (j < k)%nat -> b1 !!! j = b2 !!! j) ->
  send_down b1 k = send_down b2 k.
Proof.
  induction k as [|k IH]; intros H; [reflexivity |].
  cbn [send_down]. rewrite (H k) by lia. f_equal. apply IH.
  intros j Hj. apply H. lia.
Qed.

(** What the loop leaves below its final index does not depend on what the
    buffer held before. *)
Lemma fill_digits_garbage (room : nat) :
  forall (num : Z) (b1 b2 : list ascii) (i : nat),
  (forall j, (j < i)%nat -> b1 !!! j = b2 !!! j) ->
  (i + room <= length b1)%nat -> (i + room <= length b2)%nat ->
  match fill_digits room num b1 i, fill_digits room num b2 i with
  | Some (c1, i1), Some (c2, i2) =>
      i1 = i2 /\ forall j, (j < i1)%nat -> c1 !!! j = c2 !!! j
  | None, None => True
  | _, _ => False
  end.
Proof.
  induction room as [|room IH]; intros num b1 b2 i Hlow H1 H2;
    cbn [fill_digits]; destruct (0 <? num); auto.
  apply IH; rewrite ?length_insert; try lia.
  intros j Hj. destruct (Nat.eq_dec j i) as [-> | Hne].
  - rewrite !list_lookup_total_insert_eq by lia. reflexivity.
  - rewrite !list_lookup_total_insert_ne by lia. apply Hlow. lia.
Qed.

Lemma fill_digits_send_garbage (num : Z) (b1 b2 : list ascii) :
  length b1 = 12%nat -> length b2 = 12%nat ->
  match fill_digits 12 num b1 0 with
  | Some (b, i) => Some (send_down b i)
  | None => None
  end
  = match fill_digits 12 num b2 0 with
    | Some (b, i) => Some (send_down b i)
    | None => None
    end.
Proof.
  intros H1 H2.
  pose proof (fill_digits_garbage 12 num b1 b2 0
                ltac:(intros j Hj; lia) ltac:(lia) ltac:(lia)) as H.
  destruct (fill_digits 12 num b1 0) as [[c1 i1] |],
           (fill_digits 12 num b2 0) as [[c2 i2] |]; try easy.
  destruct H as [<- H]. f_equal. now apply send_down_ext.
Qed.

Lemma UARTSendUInt_garbage (b1 b2 : list ascii) (num : Z) :
  length b1 = 12%nat -> length b2 = 12%nat ->
  UARTSendUInt b1 num = UARTSendUInt b2 num.
Proof.
  intros H1 H2. unfold UARTSendUInt. destruct (num =? 0); [reflexivity |].
  now apply fill_digits_send_garbage.
Qed.

Lemma UARTSendInt_garbage (b1 b2 : list ascii) (num : Z) :
  length b1 = 12%nat -> length b2 = 12%nat ->
  UARTSendInt b1 num = UARTSendInt b2 num.
Proof.
  intros H1 H2. unfold UARTSendInt.
  destruct ((if num <? 0 then int32 (- num) else num) =? 0); [reflexivity |].
  pose proof (fill_digits_send_garbage
                (if num <? 0 then int32 (- num) else num) b1 b2 H1 H2) as H.
  destruct (fill_digits 12 _ b1 0) as [[c1 i1] |],
           (fill_digits 12 _ b2 0) as [[c2 i2] |]; try discriminate H;
    [| reflexivity].
  injection H as ->. reflexivity.
Qed.

Lemma UARTSendFloat_garbage (bI bU bI' bU' : list ascii)
    (value : spec_float) :
  length bI = 12%nat -> length bU = 12%nat ->
  length bI' = 12%nat -> length bU' = 12%nat ->
  UARTSendFloat bI bU value = UARTSendFloat bI' bU' value.
Proof.
  intros HI HU HI' HU'. unfold UARTSendFloat.
  destruct (f32_to_int32 value) as [intPart |]; [| reflexivity].
  destruct (f32_to_uint32 _) as [fracInt |]; [| reflexivity].
  rewrite (UARTSendInt_garbage bI bI' intPart HI HI').
  rewrite (UARTSendUInt_garbage bU bU' fracInt HU HU'). reflexivity.
Qed.

(** The digits of a positive number below 2^32, as the loop leaves them. *)
Lemma UARTSendUInt_digits (buffer : list ascii) (num : Z) :
  length buffer = 12%nat -> 0 < num < 2 ^ 32 ->
  exists b i,
    fill_digits 12 num buffer 0 = Some (b, i) /\
    canonical_decimal (send_down b i) num /\
    (1 <= String.length (send_down b i) <= 10)%nat.
Proof.
  intros Hlen Hnum.
  destruct (fill_digits_spec 12 num buffer 0)
    as (b & i' & Hfill & Hi' & Hb & _ & Hdig & Hval & Htop);
    [cbn; lia | lia |].
  destruct (Htop ltac:(lia)) as [Hpos Hnz].
  pose proof (fill_digits_count _ _ _ _ _ _ Hfill ltac:(lia)) as Hcount.
  exists b, i'. split; [exact Hfill |].
  assert (Hi10 : (i' <= 10)%nat).
  { destruct (Nat.le_gt_cases i' 10) as [? | Hbig]; [assumption |].
    exfalso.
    assert (10 ^ 10 <= 10 ^ (Z.of_nat i' - Z.of_nat 0 - 1))
      by (apply Z.pow_le_mono_r; lia).
    cbn in H. lia. }
  split; [split |].
  - unfold decimal_value. destruct i' as [|k]; [lia |].
    change (send_down b (S k)) with (String (b !!! k) (send_down b k)).
    change (String (b !!! k) (send_down b k)) with (send_down b (S k)).
    rewrite send_down_value by (intros j Hj; apply Hdig; lia).
    rewrite Hval. cbn [le_value]. f_equal. cbn. lia.
  - intros _. destruct i' as [|k]; [lia |]. cbn [send_down String.get].
    cbn [Nat.sub] in Hnz. rewrite Nat.sub_0_r in Hnz. congruence.
  - rewrite send_down_length. lia.
Qed.

(** The number of digits the loop writes. *)
Lemma digit_value_range (c : ascii) (d : Z) :
  digit_value c = Some d -> 0 <= d <= 9.
Proof.
  unfold digit_value. intros H.
  destruct ((48 <=? Z.of_N (N_of_ascii c)) && (Z.of_N (N_of_ascii c) <=? 57))
    eqn:Hc; [| discriminate H].
  apply andb_true_iff in Hc as [H1 H2]. injection H as <-. lia.
Qed.

Lemma le_value_bound (b : list ascii) (k : nat) :
  (forall j, (j < k)%nat -> is_digit (b !!! j)) ->
  0 <= le_value b k < 10 ^ Z.of_nat k.
Proof.
  induction k as [|k IH]; intros Hdig; [cbn; lia |].
  cbn [le_value]. specialize (IH ltac:(intros j Hj; apply Hdig; lia)).
  destruct (Hdig k ltac:(lia)) as [d Hd]. rewrite Hd. cbn [default].
  apply digit_value_range in Hd.
  rewrite Nat2Z.inj_succ, Z.pow_succ_r by lia. unfold id.
  generalize dependent (10 ^ Z.of_nat k). intros p IH. nia.
Qed.

Lemma fill_digits_width (buffer b : list ascii) (num : Z) (i : nat) :
  length buffer = 12%nat -> 0 < num < 2 ^ 32 ->
  fill_digits 12 num buffer 0 = Some (b, i) ->
  10 ^ (Z.of_nat i - 1) <= num < 10 ^ Z.of_nat i.
Proof.
  intros Hlen Hnum Hfill. split.
  - pose proof (fill_digits_count _ _ _ _ _ _ Hfill ltac:(lia)) as H.
    now rewrite Z.sub_0_r in H.
  - destruct (fill_digits_spec 12 num buffer 0)
      as (b' & i' & Hfill' & _ & _ & _ & Hdig & Hval & _);
      [cbn; lia | lia |].
    rewrite Hfill in Hfill'. injection Hfill' as <- <-.
    cbn [le_value Z.of_nat] in Hval.
    rewrite Z.pow_0_r, Z.mul_1_r, Z.add_0_l in Hval.
    rewrite <- Hval. apply le_value_bound. intros j Hj. apply Hdig. lia.
Qed.

(** A number does not start with a space. *)
Lemma decimal_value_drop_spaces (s : string) (n : Z) :
  decimal_value s = Some n -> drop_spaces s = s.
Proof.
  destruct s as [|c rest]; [reflexivity |]. intros H.
  destruct c as [[] [] [] [] [] [] [] []]; try reflexivity.
  cbn in H. discriminate H.
Qed.

(** X9. [UARTSendUInt] sends the decimal digits of any 32-bit unsigned number,
    most significant first and without leading zero, whatever its local
    buffer held on entry; at most ten of the twelve elements of the buffer
    are written. *)
Theorem UARTSendUInt_round_trip (buffer : list ascii) (num : Z) :
  length buffer = 12%nat -> 0 <= num < 2 ^ 32 ->
  exists text,
    UARTSendUInt buffer num = Some text /\
    canonical_decimal text num /\
    (1 <= String.length text <= 10)%nat.
Proof.
  intros Hlen Hnum. unfold UARTSendUInt.
  destruct (Z.eqb_spec num 0) as [-> | Hne].
  - exists "0"%string. repeat split; cbn; lia.
  - destruct (UARTSendUInt_digits buffer num Hlen ltac:(lia))
      as (b & i & -> & Hcan & Hlen').
    exists (send_down b i). auto.
Qed.

Lemma UARTSendUInt_round_trip_witness :
  length (replicate 12 "x"%char) = 12%nat /\ 0 <= 4294967295 < 2 ^ 32 /\
  UARTSendUInt (replicate 12 "x"%char) 4294967295 = Some "4294967295"%string.
Proof.
  split; [reflexivity |]. split; [lia |].
  destruct (UARTSendUInt_round_trip (replicate 12 "x"%char) 4294967295
              eq_refl ltac:(lia)) as (text & Heq & _).
  reflexivity.
Defined.

(** X10. [UARTSendInt] sends any 32-bit signed number above the most negative one
    as a minus sign when it is negative, followed by the decimal digits of
    its magnitude without leading zero, whatever its local buffer held. *)
Theorem UARTSendInt_round_trip (buffer : list ascii) (num : Z) :
  length buffer = 12%nat -> - 2 ^ 31 < num < 2 ^ 31 ->
  exists text,
    UARTSendInt buffer num = Some text /\
    (0 <= num -> canonical_decimal text num) /\
    (num < 0 ->
     exists digits,
       text = String "-" digits /\ canonical_decimal digits (- num)).
Proof.
  intros Hlen Hnum.
  assert (Hmag : forall n, 0 < n < 2 ^ 31 ->
            exists b i,
              fill_digits 12 n buffer 0 = Some (b, i) /\
              canonical_decimal (send_down b i) n).
  { intros n Hn.
    destruct (UARTSendUInt_digits buffer n Hlen ltac:(lia))
      as (b & i & Hfill & Hcan & _).
    exists b, i. auto. }
  unfold UARTSendInt. destruct (Z.ltb_spec num 0) as [Hneg | Hpos].
  - rewrite int32_small by lia.
    destruct (Z.eqb_spec (- num) 0) as [Hz | _]; [lia |].
    destruct (Hmag (- num) ltac:(lia)) as (b & i & -> & Hcan).
    eexists. split; [reflexivity |]. split; [lia |].
    intros _. exists (send_down b i). split; [reflexivity | exact Hcan].
  - destruct (Z.eqb_spec num 0) as [-> | Hne].
    + exists "0"%string. repeat split; cbn; lia.
    + destruct (Hmag num ltac:(lia)) as (b & i & -> & Hcan).
      eexists. split; [reflexivity |]. split; [intros _; exact Hcan | lia].
Qed.

Lemma UARTSendInt_round_trip_witness :
  length (replicate 12 "x"%char) = 12%nat /\
  - 2 ^ 31 < -2147483647 < 2 ^ 31 /\
  UARTSendInt (replicate 12 "x"%char) (-2147483647)
  = Some "-2147483647"%string.
Proof.
  split; [reflexivity |]. split; [lia |].
  destruct (UARTSendInt_round_trip (replicate 12 "x"%char) (-2147483647)
              eq_refl ltac:(lia)) as (text & Heq & _).
  reflexivity.
Defined.

(** What [voltage_text_ok] checks, for any contents of the local buffers. *)
Lemma voltage_text_ok_sound (bufferI bufferU : list ascii) (i : nat)
    (raw : Z) (v : spec_float) :
  length bufferI = 12%nat -> length bufferU = 12%nat ->
  voltage_text_ok i raw v = true ->
  exists text q digits,
    UARTSendFloat bufferI bufferU v = Some text /\
    fixed_point_value text = Some (q, digits) /\
    (fraction_carries i raw = false ->
     digits = 3%nat /\ (Qabs (q - F32.to_Q v) <= 501 # 1000000)%Q) /\
    (fraction_carries i raw = true ->
     digits = 4%nat /\ (89 # 100 <= Qabs (q - F32.to_Q v))%Q).
Proof.
  intros HI HU Hok. unfold voltage_text_ok in Hok.
  rewrite (UARTSendFloat_garbage bufferI bufferU (replicate 12 Ascii.zero)
             (replicate 12 Ascii.zero)) by (assumption || reflexivity).
  destruct (UARTSendFloat _ _ v) as [text |]; [| discriminate].
  destruct (fixed_point_value text) as [[q digits] |] eqn:Hfix;
    [| discriminate].
  exists text, q, digits. split; [reflexivity |]. split; [exact Hfix |].
  destruct (fraction_carries i raw);
    apply andb_true_iff in Hok as [Hd Hq];
    apply Nat.eqb_eq in Hd; apply Qle_bool_iff in Hq.
  - split; [intros Hc; discriminate Hc | intros _; split; assumption].
  - split; [intros _; split; assumption | intros Hc; discriminate Hc].
Qed.

(** The single-ended channel over its 12 bits: the text of each voltage. *)
Lemma single_ended_text_scan :
  scanned 12 calibrate_single_ended (voltage_text_ok 1) 0 = true.
Proof.
  unfold calibrate_single_ended, voltage_text_ok, UARTSendFloat.
  rewrite SINGLE_ENDED_value, thousand_value, half_value.
  vm_cast_no_check (eq_refl true).
Qed.

(** X11. The voltages in the tables of readings. For every raw sample within the
    resolution of its channel, [UARTSendFloat] sends a fixed-point text,
    whatever the local buffers held. Unless the fraction rounds up to 1000
    thousandths, the text has three decimals and reads back within 0.000501
    of the voltage. When it does (raw 1241 and 2482 on the single-ended
    channel, 12909..12918 and 52618..52627 on the differential one: voltages
    from 0.9995 up to 1, or 2), the carry is not taken into the integer
    part: four decimals are sent, as in 0.1000 for 0.9998 V, and the text
    reads back 0.9 away from the voltage. *)
Theorem UARTSendFloat_of_voltage (bufferI bufferU : list ascii) (i : nat)
    (read : list Z) :
  length bufferI = 12%nat -> length bufferU = 12%nat ->
  (i < NUM_ADC_CHANNELS)%nat -> valid_read read = true ->
  exists text q digits,
    UARTSendFloat bufferI bufferU (calibrate i (read !!! i)) = Some text /\
    fixed_point_value text = Some (q, digits) /\
    (fraction_carries i (read !!! i) = false ->
     digits = 3%nat /\
     (Qabs (q - F32.to_Q (calibrate i (read !!! i))) <= 501 # 1000000)%Q) /\
    (fraction_carries i (read !!! i) = true ->
     digits = 4%nat /\
     (89 # 100 <= Qabs (q - F32.to_Q (calibrate i (read !!! i))))%Q).
Proof.
  intros HI HU Hi Hread.
  destruct (valid_read_inv read Hread) as (r0 & r1 & -> & Hr0 & Hr1).
  unfold NUM_ADC_CHANNELS in Hi. destruct i as [|[|i]]; [| | lia].
  - change ([r0; r1] !!! 0%nat) with r0. rewrite calibrate_0_eq by lia.
    apply voltage_text_ok_sound; [assumption | assumption |].
    apply (proj1 (scanned_spec _ _ 16 0 differential_scan) r0).
    simpl. lia.
  - change ([r0; r1] !!! 1%nat) with r1. rewrite calibrate_1_eq.
    apply voltage_text_ok_sound; [assumption | assumption |].
    apply (proj1 (scanned_spec _ _ 12 0 single_ended_text_scan) r1).
    simpl. lia.
Qed.

Lemma UARTSendFloat_of_voltage_witness :
  length (replicate 12 "x"%char) = 12%nat /\
  (1 < NUM_ADC_CHANNELS)%nat /\ valid_read [0; 1241] = true /\
  UARTSendFloat (replicate 12 "x"%char) (replicate 12 "x"%char)
    (calibrate 1 1241) = Some "0.1000"%string /\
  F32.within (1 # 10000) (calibrate 1 1241) (9998 # 10000) = true.
Proof.
  split; [reflexivity |].
  assert (Hi : (1 < NUM_ADC_CHANNELS)%nat) by (unfold NUM_ADC_CHANNELS; lia).
  split; [exact Hi |]. split; [reflexivity |].
  destruct (UARTSendFloat_of_voltage (replicate 12 "x"%char)
              (replicate 12 "x"%char) 1 [0; 1241] eq_refl eq_refl Hi eq_refl)
    as (text & q & digits & Heq & _).
  split; reflexivity.
Defined.

(** X12. The raw column of the tables of readings: any 16-bit sample is sent
    right-aligned in exactly five characters, spaces first, and the digits
    read back as the sample. *)
Theorem DisplayReadings_raw_field_width (buffer : list ascii) (raw : Z) :
  length buffer = 12%nat -> 0 <= raw <= 65535 ->
  exists field,
    DisplayReadings_raw_field buffer raw = Some field /\
    String.length field = 5%nat /\
    decimal_value (drop_spaces field) = Some raw.
Proof.
  intros Hlen Hraw. unfold DisplayReadings_raw_field, UARTSendUInt.
  destruct (Z.eqb_spec raw 0) as [-> | Hne].
  - eexists. split; [reflexivity |]. split; reflexivity.
  - destruct (UARTSendUInt_digits buffer raw Hlen ltac:(lia))
      as (b & i & Hfill & [Hval _] & _).
    destruct (fill_digits_width buffer b raw i Hlen ltac:(lia) Hfill)
      as [Hlo Hhi].
    pose proof (decimal_value_drop_spaces _ _ Hval) as Hdrop.
    rewrite Hfill. eexists. split; [reflexivity |]. cbv zeta beta.
    assert (Hi : (i <= 5)%nat).
    { destruct (Nat.le_gt_cases i 5) as [? | Hbig]; [assumption |].
      exfalso.
      assert (10 ^ 5 <= 10 ^ (Z.of_nat i - 1))
        by (apply Z.pow_le_mono_r; lia).
      lia. }
    destruct i as [|[|[|[|[|[|i]]]]]]; try lia;
      simpl in Hlo, Hhi;
      destruct (Z.ltb_spec raw 10000), (Z.ltb_spec raw 1000),
        (Z.ltb_spec raw 100), (Z.ltb_spec raw 10); try lia;
      cbn [String.concat String.append String.length drop_spaces];
      rewrite send_down_length, Hdrop; (split; [reflexivity | exact Hval]).
Qed.

Lemma DisplayReadings_raw_field_width_witness :
  length (replicate 12 "x"%char) = 12%nat /\ 0 <= 42 <= 65535 /\
  DisplayReadings_raw_field (replicate 12 "x"%char) 42 = Some "   42"%string.
Proof.
  split; [reflexivity |]. split; [lia |].
  destruct (DisplayReadings_raw_field_width (replicate 12 "x"%char) 42
              eq_refl ltac:(lia)) as (field & Heq & _).
  reflexivity.
Defined.
